(** * PNJ valuation dashboard: the valuation engine

    A shallow embedding of the pure numeric core of the dashboard
    (helpers, baseline metrics, the FCFF discounted-cash-flow engine, the
    store-KPI scenario, the store-driven revenue path and the blended
    combiner) and the properties stated about it; then of the memoised
    values of the dashboard component, of the item selection of the
    news script, of the sentiments endpoint and of the export
    configuration, with properties read off their code.

    Numbers.  A JavaScript [number] is read as a real number: [+ - * /]
    and the comparisons are those of [R], so results are exact.  Rounding
    to binary64, overflow and NaN inputs are outside this reading.  Rocq's
    [/] is total ([x / 0 = 0]); where a statement is about a division
    being safe, the quotient is taken with [div_chk], which has no value
    on a zero divisor (JavaScript yields Infinity or NaN there).  The
    weight normalization, where rounding decides whether a sum is exactly
    1, is also given over binary64 primitive floats. *)

From Stdlib Require Import Reals Lra Lia List ZArith NArith Bool.
From Stdlib Require Import Sorting.Sorted.
From Stdlib Require Floats.PrimFloat.
From Stdlib Require Strings.String Strings.Ascii.
Import ListNotations.

Open Scope R_scope.

(** ** Small helpers (lines 46-58) and the Math functions they use *)

Definition Math_max (x y : R) : R := Rmax x y.
Definition Math_min (x y : R) : R := Rmin x y.
Definition Math_floor (x : R) : R := IZR (Zfloor x).

(** [x > 0] of the source, as a boolean test. *)
Definition gt0 (x : R) : bool := if Rlt_dec 0 x then true else false.

(** function clamp(x, lo, hi) { return Math.min(hi, Math.max(lo, x)); } *)
Definition clamp (x lo hi : R) : R := Math_min hi (Math_max lo x).

(** [Math.pow(x, y)].  On a positive base it is [exp (y * ln x)]; when
    [y] is an integer it is the integer power, on any base; on base 0
    with a positive exponent it is 0.  On the remaining arguments (a
    negative base with a non-integer exponent, base 0 with a negative
    exponent) JavaScript has no finite value (NaN, Infinity) and the
    definition reads 0; nothing below relies on those. *)
Definition is_int (y : R) : bool :=
  if Req_dec_T y (IZR (Zfloor y)) then true else false.

Definition Math_pow (x y : R) : R :=
  if Rlt_dec 0 x then Rpower x y
  else if is_int y then powerRZ x (Zfloor y)
  else 0.

(** A quotient that has a value only on a non-zero divisor. *)
Definition div_chk (x y : R) : option R :=
  if Req_dec_T y 0 then None else Some (x / y).

(** The option monad threads the checked quotients. *)
Definition bind {A B : Type} (c : option A) (k : A -> option B) : option B :=
  match c with
  | Some a => k a
  | None => None
  end.

Notation "x <- c ;; k" := (bind c (fun x => k))
  (at level 61, c at next level, right associativity).

(** [Array.prototype.map] with the callback's index argument. *)
Fixpoint mapi_from {A B : Type} (f : A -> nat -> B) (k : nat) (l : list A) : list B :=
  match l with
  | [] => []
  | a :: l' => f a k :: mapi_from f (S k) l'
  end.

Definition mapi {A B : Type} (f : A -> nat -> B) (l : list A) : list B :=
  mapi_from f 0%nat l.

Fixpoint mapi_chk_from {A B : Type} (f : A -> nat -> option B) (k : nat)
  (l : list A) : option (list B) :=
  match l with
  | [] => Some []
  | a :: l' => b <- f a k ;; bs <- mapi_chk_from f (S k) l' ;; Some (b :: bs)
  end.

Definition mapi_chk {A B : Type} (f : A -> nat -> option B) (l : list A)
  : option (list B) := mapi_chk_from f 0%nat l.

(** ** Core valuation math (lines 66-80) *)

Definition planEPSVND (planNPAT_bn shares : R) : R :=
  if gt0 shares then (planNPAT_bn * 1e9) / shares else 0.

Definition priceFromPE (epsVND pe : R) : R := epsVND * pe.

Definition netCashBn (cash_bn htm_bn borrow_bn : R) : R :=
  cash_bn + htm_bn - borrow_bn.

Definition bvpsVND (totalEquity_bn shares : R) : R :=
  if gt0 shares then (totalEquity_bn * 1e9) / shares else 0.


(** ** The FCFF engine (lines 82-152) *)

Module DCF.

Record DCFInputs : Type := mkDCFInputs {
  rev2025_bn : R;                  (* base revenue in 2025 *)
  cagr : R;                        (* fallback CAGR 2026-2030 *)
  revSeries_bn : option (list R);  (* optional explicit revenue path *)
  ebitMargin : R;
  tax : R;
  roc : R;
  wacc : R;
  gT : R;
  netCash_bn : R;
  shares : R
}.

Record DCFRow : Type := mkDCFRow {
  y : nat; t : nat; rev : R; g : R; ebit : R; nopat : R;
  reinvRate : R; fcff : R; disc : R; pv : R
}.

Record DCFResult : Type := mkDCFResult {
  rows : list DCFRow;
  pvFCFF : R; tv : R; pvTV : R; ev_bn : R; eq_bn : R; vps : R
}.

Definition years : list nat := [2026; 2027; 2028; 2029; 2030]%nat.

Definition rocSafe (i : DCFInputs) : R := Math_max (roc i) 1e-6.

(** The path generated from the fallback CAGR (lines 101-104). *)
Definition cagrSeries (i : DCFInputs) : list R :=
  mapi (fun _ idx => let t := (idx + 1)%nat in
                     rev2025_bn i * Math_pow (1 + cagr i) (INR t)) years.

(** Lines 98-104: the explicit path when it has 5 entries. *)
Definition revSeries (i : DCFInputs) : list R :=
  match revSeries_bn i with
  | Some l => if Nat.eqb (length l) 5 then l else cagrSeries i
  | None => cagrSeries i
  end.

(** [prevRev] of line 110. *)
Definition prevRevAt (i : DCFInputs) (idx : nat) : R :=
  match idx with
  | O => rev2025_bn i
  | S k => nth k (revSeries i) (rev2025_bn i)
  end.

(** The callback of [years.map] (lines 106-124). *)
Definition dcfRow (i : DCFInputs) (y : nat) (idx : nat) : DCFRow :=
  let t := (idx + 1)%nat in
  let rev := nth idx (revSeries i) 0 in
  let prevRev := prevRevAt i idx in
  let g := if gt0 prevRev then rev / prevRev - 1 else cagr i in
  let ebit := rev * ebitMargin i in
  let nopat := ebit * (1 - tax i) in
  let reinvRate := clamp (g / rocSafe i) 0 0.95 in
  let fcff := nopat * (1 - reinvRate) in
  let disc := 1 / Math_pow (1 + wacc i) (INR t) in
  let pv := fcff * disc in
  mkDCFRow y t rev g ebit nopat reinvRate fcff disc pv.

Definition dcfRows (i : DCFInputs) : list DCFRow := mapi (dcfRow i) years.

(** [rows[rows.length - 1].rev]; the list always has five rows. *)
Definition lastRev (rs : list DCFRow) : R :=
  match nth_error rs (length rs - 1) with
  | Some r => rev r
  | None => 0
  end.

Definition rev2030 (i : DCFInputs) : R := lastRev (dcfRows i).
Definition rev2031 (i : DCFInputs) : R := rev2030 i * (1 + gT i).
Definition ebit2031 (i : DCFInputs) : R := rev2031 i * ebitMargin i.
Definition nopat2031 (i : DCFInputs) : R := ebit2031 i * (1 - tax i).
Definition reinvTerm (i : DCFInputs) : R := clamp (gT i / rocSafe i) 0 0.95.
Definition fcff2031 (i : DCFInputs) : R := nopat2031 i * (1 - reinvTerm i).

(** The TV guard of line 134. *)
Definition spread (i : DCFInputs) : R := Math_max 0.001 (wacc i - gT i).

Definition sumPV (rs : list DCFRow) : R :=
  fold_left (fun s r => s + pv r) rs 0.

Definition dcfFCFF (i : DCFInputs) : DCFResult :=
  let rows := dcfRows i in
  let tv := fcff2031 i / spread i in
  let pvTV := tv / Math_pow (1 + wacc i) 5 in
  let pvFCFF := sumPV rows in
  let ev_bn := pvFCFF + pvTV in
  let eq_bn := ev_bn + netCash_bn i in
  let vps := if gt0 (shares i) then (eq_bn * 1e9) / shares i else 0 in
  mkDCFResult rows pvFCFF tv pvTV ev_bn eq_bn vps.

(** *** The same code with every quotient checked

    [Math_pow] is applied to the exponents 1..5 only, where it has a
    value on every base; the quotients are the only operations that can
    lack one. *)

Definition dcfRow_chk (i : DCFInputs) (y : nat) (idx : nat) : option DCFRow :=
  let t := (idx + 1)%nat in
  let rev := nth idx (revSeries i) 0 in
  let prevRev := prevRevAt i idx in
  g <- (if gt0 prevRev then q <- div_chk rev prevRev ;; Some (q - 1)
        else Some (cagr i)) ;;
  let ebit := rev * ebitMargin i in
  let nopat := ebit * (1 - tax i) in
  q <- div_chk g (rocSafe i) ;;
  let reinvRate := clamp q 0 0.95 in
  let fcff := nopat * (1 - reinvRate) in
  disc <- div_chk 1 (Math_pow (1 + wacc i) (INR t)) ;;
  let pv := fcff * disc in
  Some (mkDCFRow y t rev g ebit nopat reinvRate fcff disc pv).

Definition dcfFCFF_chk (i : DCFInputs) : option DCFResult :=
  rows <- mapi_chk (dcfRow_chk i) years ;;
  let rev2030 := lastRev rows in
  let rev2031 := rev2030 * (1 + gT i) in
  let ebit2031 := rev2031 * ebitMargin i in
  let nopat2031 := ebit2031 * (1 - tax i) in
  q <- div_chk (gT i) (rocSafe i) ;;
  let reinvTerm := clamp q 0 0.95 in
  let fcff2031 := nopat2031 * (1 - reinvTerm) in
  let spread := Math_max 0.001 (wacc i - gT i) in
  tv <- div_chk fcff2031 spread ;;
  pvTV <- div_chk tv (Math_pow (1 + wacc i) 5) ;;
  let pvFCFF := sumPV rows in
  let ev_bn := pvFCFF + pvTV in
  let eq_bn := ev_bn + netCash_bn i in
  vps <- (if gt0 (shares i) then div_chk (eq_bn * 1e9) (shares i) else Some 0) ;;
  Some (mkDCFResult rows pvFCFF tv pvTV ev_bn eq_bn vps).

End DCF.

(** ** Store KPI driver, anchored to the plan (lines 157-205) *)

Module StoreKPI.

Record StoreKPIInputs : Type := mkStoreKPIInputs {
  startStores : R;   (* baseline *)
  netNewStores : R;  (* net openings over 12 months *)
  ramp : R;          (* revenue of a new store against a mature one *)
  sssgDelta : R;     (* delta against the plan *)
  opLeverage : R     (* sensitivity of NPAT to revenue *)
}.

Definition effectiveAvgStores (startStores netNewStores ramp : R) : R :=
  let s0 := Math_max 0 startStores in
  let nn := netNewStores in
  let r := clamp ramp 0 1 in
  s0 + (nn / 2) * r.

Record Scenario : Type := mkScenario {
  endStores : R;
  avgStoresEff : R;
  revenue_bn : R;
  npat_bn : R;
  epsVND : R;
  epsVsPlan : R;
  revRatio : R
}.

Definition storeDrivenScenario (planRevenue_bn planNPAT_bn shares : R)
  (base scenario : StoreKPIInputs) : Scenario :=
  let baseEff :=
    Math_max 1e-6
      (effectiveAvgStores (startStores base) (netNewStores base) (ramp base)) in
  let scenEff :=
    Math_max 0
      (effectiveAvgStores (startStores scenario) (netNewStores scenario)
         (ramp scenario)) in
  let rev := planRevenue_bn * (scenEff / baseEff) * (1 + sssgDelta scenario) in
  let revRatio :=
    if gt0 planRevenue_bn then Math_max 0 (rev / planRevenue_bn) else 0 in
  let opLev := clamp (opLeverage scenario) 0.5 2.0 in
  let npat := planNPAT_bn * Math_pow revRatio opLev in
  let eps := if gt0 shares then (npat * 1e9) / shares else 0 in
  let epsVsPlan := if gt0 planNPAT_bn then npat / planNPAT_bn - 1 else 0 in
  let endStores := Math_max 0 (startStores scenario + netNewStores scenario) in
  mkScenario endStores scenEff rev npat eps epsVsPlan revRatio.

End StoreKPI.

(** ** Store-driven revenue path for the DCF (lines 212-286) *)

Module StoreDCF.

Record StoreDCFRow : Type := mkStoreDCFRow {
  year : nat;
  storesStart : R;
  storesEnd : R;
  avgStoresEff : R;
  row_sssgAbs : R;   (* field [sssgAbs] of the row *)
  retailRev_bn : R;
  otherRev_bn : R;
  revenue_bn : R;
  yoy : R
}.

Record Params : Type := mkParams {
  rev2025_bn : R;
  retailShare : R;    (* fraction of revenue linked to stores *)
  otherCagr : R;      (* growth of the revenue not linked to stores *)
  storeStart : R;     (* starting stores at end-2025 *)
  netNewPerYear : R;  (* net new stores per year, 2026-2030 *)
  ramp : R;           (* first-year productivity of new stores *)
  sssgAbs : R         (* absolute SSSG per year *)
}.

Record Series : Type := mkSeries {
  rows : list StoreDCFRow;
  impliedCAGR : R
}.

Definition years : list nat := [2026; 2027; 2028; 2029; 2030]%nat.

(** The local constants of lines 235-251; a trailing [0] marks a local
    that shadows the parameter of the same name. *)
Definition retailShare0 (p : Params) : R := clamp (retailShare p) 0 1.
Definition otherShare (p : Params) : R := 1 - retailShare0 p.
Definition storeStart0 (p : Params) : R :=
  Math_max 0 (Math_floor (storeStart p)).
Definition nn (p : Params) : R := Math_floor (netNewPerYear p).
Definition ramp0 (p : Params) : R := clamp (ramp p) 0 1.
Definition sssg (p : Params) : R := clamp (sssgAbs p) (-0.05) 0.20.
Definition otherCagr0 (p : Params) : R := clamp (otherCagr p) (-0.05) 0.20.
Definition baseEff2025 (p : Params) : R :=
  Math_max 1e-6 (StoreKPI.effectiveAvgStores (storeStart0 p) (nn p) (ramp0 p)).
Definition retailRev2025 (p : Params) : R := rev2025_bn p * retailShare0 p.
Definition otherRev2025 (p : Params) : R := rev2025_bn p * otherShare p.
Definition matureRetailRevPerEffStore (p : Params) : R :=
  retailRev2025 p / baseEff2025 p.

(** [Array.prototype.forEach] with the index, threading the variables the
    callback assigns: here the pushed [rows] and [prevTotal]. *)
Fixpoint forEachi_from {A St : Type} (f : St -> A -> nat -> St) (k : nat)
  (l : list A) (s : St) : St :=
  match l with
  | [] => s
  | a :: l' => forEachi_from f (S k) l' (f s a k)
  end.

(** The row pushed by the callback of [years.forEach] (lines 257-278),
    given the value of [prevTotal] when the callback runs. *)
Definition storeRow (p : Params) (year idx : nat) (prevTotal : R)
  : StoreDCFRow :=
  let t := (idx + 1)%nat in
  let storesStart := storeStart0 p + nn p * (INR t - 1) in
  let storesEnd := storesStart + nn p in
  let avgStoresEff := storesStart + (nn p / 2) * ramp0 p in
  let retailRev :=
    matureRetailRevPerEffStore p * avgStoresEff * Math_pow (1 + sssg p) (INR t) in
  let otherRev := otherRev2025 p * Math_pow (1 + otherCagr0 p) (INR t) in
  let total := retailRev + otherRev in
  let yoy := if gt0 prevTotal then total / prevTotal - 1 else 0 in
  mkStoreDCFRow year storesStart storesEnd avgStoresEff (sssg p)
    retailRev otherRev total yoy.

(** The callback: push the row, then [prevTotal = total] (line 280). *)
Definition yearStep (p : Params) (st : list StoreDCFRow * R) (year idx : nat)
  : list StoreDCFRow * R :=
  let '(rows, prevTotal) := st in
  let r := storeRow p year idx prevTotal in
  (rows ++ [r], revenue_bn r).

Definition lastRevenue (rs : list StoreDCFRow) : R :=
  match nth_error rs (length rs - 1) with
  | Some r => revenue_bn r
  | None => 0
  end.

Definition buildStoreDCFSeries (p : Params) : Series :=
  let '(rows, _) := forEachi_from (yearStep p) 0 years ([], rev2025_bn p) in
  let impliedCAGR :=
    if gt0 (rev2025_bn p)
    then Math_pow (lastRevenue rows / rev2025_bn p) (1 / 5) - 1
    else 0 in
  mkSeries rows impliedCAGR.

End StoreDCF.

(** ** Blended valuation (lines 654-672)

    [normalizedWeights] and [blendedValue] are memoised values of the
    component; they are functions of the state they depend on. *)

Module Blend.

Record Weights : Type := mkWeights {
  wPE : R; wDCF : R; wPB : R; sum : R
}.

Definition normalizedWeights (usePE useDCF usePB : bool) (wPE wDCF wPB : R)
  : Weights :=
  let a := if usePE then wPE else 0 in
  let b := if useDCF then wDCF else 0 in
  let c := if usePB then wPB else 0 in
  let s := a + b + c in
  if Rle_dec s 0 then mkWeights 0 0 0 0
  else mkWeights (a / s) (b / s) (c / s) s.

Record Blended : Type := mkBlended {
  peV : R; dcfV : R; pbV : R; v : R; up : R
}.

Definition blendedValue (usePE useDCF usePB : bool) (nw : Weights)
  (tp vps pbValue price : R) : Blended :=
  let peV := tp in
  let dcfV := vps in
  let pbV := pbValue in
  let v := (if usePE then wPE nw * peV else 0)
           + (if useDCF then wDCF nw * dcfV else 0)
           + (if usePB then wPB nw * pbV else 0) in
  let up := if gt0 price then v / price - 1 else 0 in
  mkBlended peV dcfV pbV v up.

End Blend.

(** *** The weights over binary64

    [normalizedWeights] once more, with the arithmetic of JavaScript
    numbers (IEEE 754 binary64, round to nearest even) in place of the
    reals, to evaluate the rounding of the normalized weights. *)

Module Binary64.

Import PrimFloat.
Local Open Scope float_scope.

Definition normalizedWeights (usePE useDCF usePB : bool) (wPE wDCF wPB : float)
  : float * float * float * float :=
  let a := if usePE then wPE else 0 in
  let b := if useDCF then wDCF else 0 in
  let c := if usePB then wPB else 0 in
  let s := a + b + c in
  if s <=? 0 then (0, 0, 0, 0)
  else (a / s, b / s, c / s, s).

(** Do the three normalized weights sum to exactly 1? *)
Definition sumsToOne (w : float * float * float * float) : bool :=
  let '(wPE, wDCF, wPB, _) := w in wPE + wDCF + wPB =? 1.

(** The default weights of the dashboard (lines 456-461), all enabled. *)
Definition defaultWeights : float * float * float * float :=
  normalizedWeights true true true 60 30 10.

End Binary64.

(** ** The dashboard component (lines 381-750)

    The state of [PNJValuationDashboard] is a record of its [useState]
    variables; every memoised value is a function of the state.  A field
    the component sets to [NaN] is an [option] that is [None] there. *)

Module Dashboard.

(** [Math.round]: to the nearest integer, a tie towards +infinity. *)
Definition Math_round (x : R) : R := Math_floor (x + 0.5).

(** function roundTo(x, digits = 0) (lines 51-54) *)
Definition roundTo (x digits : R) : R :=
  let p := Math_pow 10 digits in
  Math_round (x * p) / p.

Inductive ScenarioName : Type := Bear | Base | Bull.

Definition ScenarioName_eqb (a b : ScenarioName) : bool :=
  match a, b with
  | Bear, Bear | Base, Base | Bull, Bull => true
  | _, _ => false
  end.

Inductive Driver : Type := STORE | EPS.

(** The state of [scBear], [scBase], [scBull]. *)
Record ScenarioDef : Type := mkScenarioDef { def_epsVsPlan : R; def_pe : R }.

Record State : Type := mkState {
  price : R; shares : R; planNPAT : R; npat9m : R; planRevenue : R;
  cash : R; htm : R; borrow : R; totalEquity : R;
  tax : R; ebitMargin : R; cagr : R; gT : R; roc : R; wacc : R;
  useStoreDCF : bool; retailShareDCF : R; baseSSSG_DCF : R; otherCagrDCF : R;
  rf : R; beta : R; erp : R;
  pbMultiple : R;
  scBear : ScenarioDef; scBase : ScenarioDef; scBull : ScenarioDef;
  activeScenario : ScenarioName;
  useStoreKPI : bool; startStores : R;
  baseNetNewStores : R; bearNetNewStores : R; bullNetNewStores : R;
  sssgBear : R; sssgBase : R; sssgBull : R;
  newStoreRamp : R; opLeverage : R;
  actualStoresByQuarter : list (option R);
  usePE : bool; useDCF : bool; usePB : bool;
  wPE : R; wDCF : R; wPB : R
}.

(** The initial state (lines 390-461), which [resetDefaults] restores. *)
Definition defaults : State :=
  mkState 95900 341149107 1959.65 1610.0 31606.954
    4122.714 1020.17 3341.542 11256.955
    0.2 0.07 0.08 0.03 0.18 0.09
    true 0.85 0.04 0.03
    0.0418 0.52 0.083455
    2.8
    (mkScenarioDef (-0.08) 15) (mkScenarioDef 0.0 17) (mkScenarioDef 0.1 19)
    Base
    true 429
    20 10 30
    (-0.02) 0.0 0.03
    0.7 1.0
    [None; None; None; None]
    true true true
    60 30 10.

Definition resetDefaults (s : State) : State := defaults.

(** *** Baseline metrics (lines 463-470) *)

Definition netCash (s : State) : R := netCashBn (cash s) (htm s) (borrow s).
Definition planEPS (s : State) : R := planEPSVND (planNPAT s) (shares s).
Definition mktCapBn (s : State) : R := (price s * shares s) / 1e9.
Definition bvps (s : State) : R := bvpsVND (totalEquity s) (shares s).
Definition pbValue (s : State) : R := bvps s * pbMultiple s.
Definition costOfEquity (s : State) : R := rf s + beta s * erp s.

(** *** Store plans (lines 473-517) *)

Definition baseStorePlan (s : State) : StoreKPI.StoreKPIInputs :=
  StoreKPI.mkStoreKPIInputs (startStores s) (baseNetNewStores s)
    (newStoreRamp s) (sssgBase s) (opLeverage s).

Definition storeParams_bear (s : State) : StoreKPI.StoreKPIInputs :=
  StoreKPI.mkStoreKPIInputs (startStores s) (bearNetNewStores s)
    (newStoreRamp s) (sssgBear s) (opLeverage s).

Definition storeParams_base (s : State) : StoreKPI.StoreKPIInputs :=
  StoreKPI.mkStoreKPIInputs (startStores s) (baseNetNewStores s)
    (newStoreRamp s) (sssgBase s) (opLeverage s).

Definition storeParams_bull (s : State) : StoreKPI.StoreKPIInputs :=
  StoreKPI.mkStoreKPIInputs (startStores s) (bullNetNewStores s)
    (newStoreRamp s) (sssgBull s) (opLeverage s).

(** *** The scenario table (lines 519-579) *)

Record Row : Type := mkRow {
  name : ScenarioName;
  driver : Driver;
  pe : R;
  epsVsPlan : R;
  revenue_bn : option R;
  npat : R;
  eps : R;
  tp : R;
  upside : R;
  q4Req : R;
  storesStart : option R;
  storesEnd : option R;
  netNewStores : option R;
  avgStoresEff : option R;
  sssgDelta : option R
}.

Definition makeRow (s : State) (name : ScenarioName) (epsVsPlan pe : R)
  (storeCfg : option StoreKPI.StoreKPIInputs) : Row :=
  match (if useStoreKPI s then storeCfg else None) with
  | Some storeCfg =>
      let out := StoreKPI.storeDrivenScenario (planRevenue s) (planNPAT s)
                   (shares s) (baseStorePlan s) storeCfg in
      let tp := priceFromPE (StoreKPI.epsVND out) pe in
      let upside := if gt0 (price s) then tp / price s - 1 else 0 in
      let q4Req := StoreKPI.npat_bn out - npat9m s in
      mkRow name STORE pe (StoreKPI.epsVsPlan out)
        (Some (StoreKPI.revenue_bn out)) (StoreKPI.npat_bn out)
        (StoreKPI.epsVND out) tp upside q4Req
        (Some (StoreKPI.startStores storeCfg)) (Some (StoreKPI.endStores out))
        (Some (StoreKPI.netNewStores storeCfg))
        (Some (StoreKPI.avgStoresEff out)) (Some (StoreKPI.sssgDelta storeCfg))
  | None =>
      let npat := planNPAT s * (1 + epsVsPlan) in
      let eps := if gt0 (shares s) then (npat * 1e9) / shares s else 0 in
      let tp := priceFromPE eps pe in
      let upside := if gt0 (price s) then tp / price s - 1 else 0 in
      let q4Req := npat - npat9m s in
      mkRow name EPS pe epsVsPlan None npat eps tp upside q4Req
        None None None None None
  end.

Definition rowBear (s : State) : Row :=
  makeRow s Bear (def_epsVsPlan (scBear s)) (def_pe (scBear s))
    (Some (storeParams_bear s)).
Definition rowBase (s : State) : Row :=
  makeRow s Base (def_epsVsPlan (scBase s)) (def_pe (scBase s))
    (Some (storeParams_base s)).
Definition rowBull (s : State) : Row :=
  makeRow s Bull (def_epsVsPlan (scBull s)) (def_pe (scBull s))
    (Some (storeParams_bull s)).

Definition scenarioTable (s : State) : list Row :=
  [rowBear s; rowBase s; rowBull s].

(** [scenarioTable.find(...) ?? scenarioTable[1]]; entry 1 is the Base
    row. *)
Definition activeRow (s : State) : Row :=
  match find (fun r => ScenarioName_eqb (name r) (activeScenario s))
          (scenarioTable s) with
  | Some r => r
  | None => rowBase s
  end.

(** *** Store tracker (lines 383, 582-598) *)

Section Quarters.
Import String.StringSyntax.
Local Open Scope string_scope.

Definition QUARTERS_12M : list String.string := ["Q1"; "Q2"; "Q3"; "Q4"].

End Quarters.

Definition basePlanStoresByQuarter (s : State) : list (String.string * R) :=
  let s0 := Math_max 0 (startStores s) in
  let nn := baseNetNewStores s in
  mapi (fun q idx =>
          let t := (INR idx + 1) / 4 in
          let endStores := Math_round (s0 + nn * t) in
          (q, endStores))
       QUARTERS_12M.

(** The loop of lines 593-596 runs from the last entry down to the
    first and returns the first finite one it meets. *)
Fixpoint lastFinite (l : list (option R)) : option R :=
  match l with
  | [] => None
  | v :: l' =>
      match lastFinite l' with
      | Some w => Some w
      | None => v
      end
  end.

Definition latestActualStores (s : State) : R :=
  match lastFinite (actualStoresByQuarter s) with
  | Some v => v
  | None => startStores s
  end.

(** *** The DCF of the dashboard (lines 609-652) *)

Definition activeStoreParams (s : State) : StoreKPI.StoreKPIInputs :=
  match activeScenario s with
  | Bear => storeParams_bear s
  | Bull => storeParams_bull s
  | Base => storeParams_base s
  end.

Definition dcfStoreCfg (s : State) : StoreDCF.Params :=
  let sc := activeStoreParams s in
  StoreDCF.mkParams (planRevenue s) (retailShareDCF s) (otherCagrDCF s)
    (latestActualStores s) (StoreKPI.netNewStores sc) (StoreKPI.ramp sc)
    (baseSSSG_DCF s + StoreKPI.sssgDelta sc).

Definition storeDCF (s : State) : option StoreDCF.Series :=
  if useStoreDCF s then Some (StoreDCF.buildStoreDCFSeries (dcfStoreCfg s))
  else None.

Record DcfMemo : Type := mkDcfMemo {
  inp : DCF.DCFInputs;
  out : DCF.DCFResult
}.

Definition dcf (s : State) : DcfMemo :=
  let revSeries_bn :=
    match storeDCF s with
    | Some series => Some (map StoreDCF.revenue_bn (StoreDCF.rows series))
    | None => None
    end in
  let waccSafe := Math_max (wacc s) (gT s + 0.005) in
  let inp := DCF.mkDCFInputs (planRevenue s) (cagr s) revSeries_bn
               (ebitMargin s) (tax s) (roc s) waccSafe (gT s) (netCash s)
               (shares s) in
  mkDcfMemo inp (DCF.dcfFCFF inp).

(** *** Blending and chart data (lines 654-693) *)

Definition normalizedWeights (s : State) : Blend.Weights :=
  Blend.normalizedWeights (usePE s) (useDCF s) (usePB s) (wPE s) (wDCF s)
    (wPB s).

Definition blendedValue (s : State) : Blend.Blended :=
  Blend.blendedValue (usePE s) (useDCF s) (usePB s) (normalizedWeights s)
    (tp (activeRow s)) (DCF.vps (out (dcf s))) (pbValue s) (price s).

Definition scenarioChartData (s : State) : list (ScenarioName * R * R) :=
  map (fun r => (name r, roundTo (tp r) 0, roundTo (upside r * 100) 1))
      (scenarioTable s).

Definition dcfSeries (s : State) : list (nat * R * R * R) :=
  map (fun r => (DCF.y r, roundTo (DCF.rev r) 1, roundTo (DCF.fcff r) 1,
                 roundTo (DCF.pv r) 1))
      (DCF.rows (out (dcf s))).

End Dashboard.

(** ** JavaScript strings

    A string is the list of its UTF-16 code units, so that [length],
    [slice], [split] and [trim] count and cut as JavaScript does. *)

Module Js.

Import String.StringSyntax.
Local Open Scope string_scope.
Local Open Scope list_scope.

Definition jsstring : Type := list N.

(** A literal; the literals of the source that are used are ASCII. *)
Definition lit (s : String.string) : jsstring :=
  map Ascii.N_of_ascii (String.list_ascii_of_string s).

Fixpoint eqb (a b : jsstring) : bool :=
  match a, b with
  | [], [] => true
  | x :: a', y :: b' => N.eqb x y && eqb a' b'
  | _, _ => false
  end.

(** Truthiness of a string: every string but the empty one. *)
Definition truthy (s : jsstring) : bool :=
  match s with
  | [] => false
  | _ :: _ => true
  end.

(** [set.has(s)] for a set kept as the list of the added strings. *)
Definition has (set : list jsstring) (s : jsstring) : bool :=
  existsb (eqb s) set.

(** WhiteSpace and LineTerminator code units, which [trim] removes. *)
Definition is_ws (c : N) : bool :=
  (N.eqb c 9 || N.eqb c 10 || N.eqb c 11 || N.eqb c 12 || N.eqb c 13
   || N.eqb c 32 || N.eqb c 160 || N.eqb c 5760
   || (N.leb 8192 c && N.leb c 8202)
   || N.eqb c 8232 || N.eqb c 8233 || N.eqb c 8239 || N.eqb c 8287
   || N.eqb c 12288 || N.eqb c 65279)%bool.

Fixpoint trimStart (s : jsstring) : jsstring :=
  match s with
  | [] => []
  | c :: r => if is_ws c then trimStart r else s
  end.

Definition trim (s : jsstring) : jsstring :=
  rev (trimStart (rev (trimStart s))).

(** [s.split(sep)] for a separator of one code unit. *)
Fixpoint split (sep : N) (s : jsstring) : list jsstring :=
  match s with
  | [] => [[]]
  | c :: r =>
      if N.eqb c sep then [] :: split sep r
      else match split sep r with
           | [] => [[c]]
           | h :: t => (c :: h) :: t
           end
  end.

Definition comma : N := 44.
Definition slash : N := 47.

End Js.

(** ** The news script (part_001): summaries and the selection of items *)

Module News.

Import String.StringSyntax.
Local Open Scope string_scope.
Local Open Scope list_scope.
Local Open Scope nat_scope.

Definition MAX_ITEMS : nat := 5.

(** limitSummary (line 25) *)
Definition limitSummary (text : Js.jsstring) : Js.jsstring :=
  if 240 <? length text then firstn 237 text ++ Js.lit "..." else text.

(** The three dots that end a cut summary. *)
Definition dots : Js.jsstring := Js.lit "...".

(** The candidates of [main] (lines 184-193, 269-278); [ts] is a time in
    milliseconds, 0 when the date cannot be read. *)
Record Item : Type := mkItem {
  title : Js.jsstring;
  summary : Js.jsstring;
  url : Js.jsstring;
  date : Js.jsstring;
  source : Js.jsstring;
  tag : Js.jsstring;
  ts : Z;
  pnjIr : bool
}.

(** [.sort((a, b) => b.ts - a.ts)]: a stable sort, latest first.  An
    item is inserted in front of the first item that is not later. *)
Fixpoint insertByTs (x : Item) (l : list Item) : list Item :=
  match l with
  | [] => [x]
  | y :: l' => if (ts y <=? ts x)%Z then x :: l else y :: insertByTs x l'
  end.

Definition sortByTs (l : list Item) : list Item :=
  fold_right insertByTs [] l.

(** [item.url || item.title] (line 292) *)
Definition key (item : Item) : Js.jsstring :=
  if Js.truthy (url item) then url item else title item.

(** [pushItem] (lines 290-296) on the pair of [results] and
    [seenSelected]. *)
Definition pushItem (st : list Item * list Js.jsstring) (item : Item)
  : list Item * list Js.jsstring :=
  let '(results, seenSelected) := st in
  let k := key item in
  if Js.has seenSelected k then st
  else (results ++ [item], k :: seenSelected).

(** [for (const item of items) { if (results.length >= limit) break;
    pushItem(item); }] (lines 298-306) *)
Fixpoint pushUpTo (limit : nat) (items : list Item)
  (st : list Item * list Js.jsstring) : list Item * list Js.jsstring :=
  match items with
  | [] => st
  | item :: rest =>
      if limit <=? length (fst st) then st
      else pushUpTo limit rest (pushItem st item)
  end.

(** Lines 281-306 of [main]: the selected [results]. *)
Definition selectItems (candidates : list Item) : list Item :=
  let pnjItems := sortByTs (filter (fun item => pnjIr item) candidates) in
  let otherItems :=
    sortByTs (filter (fun item => negb (pnjIr item)) candidates) in
  let st := pushUpTo 2 pnjItems ([], []) in
  let st := pushUpTo MAX_ITEMS otherItems st in
  fst st.

End News.

(** ** The sentiments endpoint (part_002)

    A request is its method and the three headers the handler reads; the
    document store is the list of documents read, or [None] when the
    read throws.  A response is the status, the headers set by the
    handler and the body sent. *)

Module Functions.

Import String.StringSyntax.
Local Open Scope string_scope.
Local Open Scope list_scope.
Local Open Scope nat_scope.

Record Request : Type := mkRequest {
  method : Js.jsstring;
  x_forwarded_host : option Js.jsstring;  (* req.get("x-forwarded-host") *)
  host : option Js.jsstring;              (* req.get("host") *)
  origin : option Js.jsstring             (* req.get("origin") *)
}.

Definition LOCAL_ALLOWED_ORIGINS : list Js.jsstring :=
  [Js.lit "http://localhost:3000"; Js.lit "http://127.0.0.1:3000"].

Definition CORS_HEADERS : list (Js.jsstring * Js.jsstring) :=
  [(Js.lit "Access-Control-Allow-Methods", Js.lit "GET, OPTIONS");
   (Js.lit "Access-Control-Allow-Headers", Js.lit "Content-Type");
   (Js.lit "Access-Control-Max-Age", Js.lit "3600")].

Definition getPrimaryHost (req : Request) : Js.jsstring :=
  match x_forwarded_host req with
  | Some forwardedHost =>
      if Js.truthy forwardedHost
      then Js.trim (hd [] (Js.split Js.comma forwardedHost))
      else match host req with Some h => h | None => [] end
  | None => match host req with Some h => h | None => [] end
  end.

(** [process.env.ALLOWED_ORIGINS] is the first argument. *)
Definition getAllowedOrigins (ALLOWED_ORIGINS : option Js.jsstring)
  (req : Request) : list Js.jsstring :=
  let origins := LOCAL_ALLOWED_ORIGINS in
  let configured :=
    filter Js.truthy
      (map Js.trim
         (Js.split Js.comma
            (match ALLOWED_ORIGINS with Some e => e | None => [] end))) in
  let origins := origins ++ configured in
  let host := getPrimaryHost req in
  if Js.truthy host
  then origins ++ [Js.lit "https://" ++ host; Js.lit "http://" ++ host]
  else origins.

(** [res.set(key, value)]: the header is replaced when already set. *)
Definition set_header (hs : list (Js.jsstring * Js.jsstring))
  (k v : Js.jsstring) : list (Js.jsstring * Js.jsstring) :=
  filter (fun kv => negb (Js.eqb (fst kv) k)) hs ++ [(k, v)].

Definition get_header (hs : list (Js.jsstring * Js.jsstring))
  (k : Js.jsstring) : option Js.jsstring :=
  match find (fun kv => Js.eqb (fst kv) k) hs with
  | Some kv => Some (snd kv)
  | None => None
  end.

(** [applyCors]: the headers after the call and the [ok] of its result. *)
Definition applyCors (ALLOWED_ORIGINS : option Js.jsstring) (req : Request)
  (hs : list (Js.jsstring * Js.jsstring))
  : list (Js.jsstring * Js.jsstring) * bool :=
  let hs := fold_left (fun h kv => set_header h (fst kv) (snd kv))
              CORS_HEADERS hs in
  match origin req with
  | None => (hs, true)
  | Some o =>
      if Js.truthy o
      then
        let allowedOrigins := getAllowedOrigins ALLOWED_ORIGINS req in
        if Js.has allowedOrigins o
        then
          let hs := set_header hs (Js.lit "Access-Control-Allow-Origin") o in
          let hs := set_header hs (Js.lit "Vary") (Js.lit "Origin") in
          (hs, true)
        else (hs, false)
      else (hs, true)
  end.

Section Handler.

(** The type of a stored sentiment and the constant [NEWS_DATA]. *)
Variable V : Type.
Variable News : Type.
Variable NEWS_DATA : News.

(** A document: its id and its [sentiment] field when it has one. *)
Definition Doc : Type := (Js.jsstring * option V)%type.

Inductive Body : Type :=
| Send (text : Js.jsstring)
| Json (news : News) (sentiments : list (Js.jsstring * V)).

Record Response : Type := mkResponse {
  status : nat;
  headers : list (Js.jsstring * Js.jsstring);
  body : Body
}.

(** [sentiments[id] = v] on an object kept as its list of entries. *)
Fixpoint obj_set (o : list (Js.jsstring * V)) (id : Js.jsstring) (v : V)
  : list (Js.jsstring * V) :=
  match o with
  | [] => [(id, v)]
  | (k, w) :: o' =>
      if Js.eqb k id then (k, v) :: o' else (k, w) :: obj_set o' id v
  end.

Fixpoint obj_get (o : list (Js.jsstring * V)) (id : Js.jsstring) : option V :=
  match o with
  | [] => None
  | (k, w) :: o' => if Js.eqb k id then Some w else obj_get o' id
  end.

(** The [snapshot.forEach] of lines 134-139: only documents that have
    the field are entered. *)
Definition collectSentiments (docs : list Doc) : list (Js.jsstring * V) :=
  fold_left (fun o d => match snd d with
                        | Some v => obj_set o (fst d) v
                        | None => o
                        end) docs [].

(** [getSentiments] (lines 113-145). *)
Definition getSentiments (ALLOWED_ORIGINS : option Js.jsstring)
  (store : option (list Doc)) (req : Request) : Response :=
  let '(hs, ok) := applyCors ALLOWED_ORIGINS req [] in
  if negb ok then mkResponse 403 hs (Send (Js.lit "Origin not allowed"))
  else if Js.eqb (method req) (Js.lit "OPTIONS")
  then mkResponse 204 hs (Send (Js.lit ""))
  else if negb (Js.eqb (method req) (Js.lit "GET"))
  then mkResponse 405 hs (Send (Js.lit "Method not allowed"))
  else match store with
       | Some docs => mkResponse 200 hs (Json NEWS_DATA (collectSentiments docs))
       | None => mkResponse 500 hs (Send (Js.lit "Error fetching sentiments"))
       end.

End Handler.

Arguments Send {V News} text.
Arguments Json {V News} news sentiments.
Arguments status {V News} r.
Arguments headers {V News} r.
Arguments body {V News} r.
Arguments obj_set {V} o id v.
Arguments obj_get {V} o id.
Arguments collectSentiments {V} docs.
Arguments getSentiments {V News} NEWS_DATA ALLOWED_ORIGINS store req.

End Functions.

(** ** next.config.ts: the base path of the static export *)

Module NextConfig.

Import String.StringSyntax.
Local Open Scope string_scope.
Local Open Scope list_scope.

(** [basePath] of the exported configuration ([None] is [undefined]),
    from [process.env.GITHUB_ACTIONS] and [process.env.GITHUB_REPOSITORY]. *)
Definition basePath (GITHUB_ACTIONS GITHUB_REPOSITORY : option Js.jsstring)
  : option Js.jsstring :=
  let isGithubActions :=
    match GITHUB_ACTIONS with
    | Some v => Js.eqb v (Js.lit "true")
    | None => false
    end in
  let githubRepo :=
    match GITHUB_REPOSITORY with
    | Some r => nth 1 (Js.split Js.slash r) []
    | None => []
    end in
  let basePath :=
    if (isGithubActions && Js.truthy githubRepo)%bool
    then Js.lit "/" ++ githubRepo else [] in
  if Js.truthy basePath then Some basePath else None.

End NextConfig.

(** ** Inputs used in the statements below *)

(** [{ ...i, revSeries_bn: s }] *)
Definition withRevSeries (i : DCF.DCFInputs) (s : option (list R))
  : DCF.DCFInputs :=
  DCF.mkDCFInputs (DCF.rev2025_bn i) (DCF.cagr i) s (DCF.ebitMargin i)
    (DCF.tax i) (DCF.roc i) (DCF.wacc i) (DCF.gT i) (DCF.netCash_bn i)
    (DCF.shares i).

(** [{ ...i, wacc: w }] *)
Definition withWacc (i : DCF.DCFInputs) (w : R) : DCF.DCFInputs :=
  DCF.mkDCFInputs (DCF.rev2025_bn i) (DCF.cagr i) (DCF.revSeries_bn i)
    (DCF.ebitMargin i) (DCF.tax i) (DCF.roc i) w (DCF.gT i) (DCF.netCash_bn i)
    (DCF.shares i).

(** The revenue path of the specification: entry [t] is
    [rev2025 * (1 + cagr)^t], for [t = 1..5]. *)
Definition cagrPath_spec (rev2025 cagr : R) : list R :=
  map (fun t => rev2025 * (1 + cagr) ^ t) [1; 2; 3; 4; 5]%nat.

(** The default state of the dashboard (lines 390-408). *)
Definition dcf_default : DCF.DCFInputs :=
  DCF.mkDCFInputs 31606.954 0.08 None 0.07 0.2 0.18 0.09 0.03 1801.342 341149107.

(** The same inputs with a discount rate of -100%. *)
Definition dcf_undiscounted : DCF.DCFInputs := withWacc dcf_default (-1).

(** [{ ...scenario, netNewStores: n }] *)
Definition withNetNewStores (k : StoreKPI.StoreKPIInputs) (n : R)
  : StoreKPI.StoreKPIInputs :=
  StoreKPI.mkStoreKPIInputs (StoreKPI.startStores k) n (StoreKPI.ramp k)
    (StoreKPI.sssgDelta k) (StoreKPI.opLeverage k).

(** The base store plan of the dashboard (lines 432-450). *)
Definition kpi_default : StoreKPI.StoreKPIInputs :=
  StoreKPI.mkStoreKPIInputs 429 20 0.7 0 1.

(** A plan without stores. *)
Definition kpi_no_stores : StoreKPI.StoreKPIInputs :=
  StoreKPI.mkStoreKPIInputs 0 0 0.7 0 1.

(** A scenario whose same-store sales fall by more than 100%. *)
Definition kpi_collapse : StoreKPI.StoreKPIInputs :=
  StoreKPI.mkStoreKPIInputs 429 20 0.7 (-2) 1.

(** The store-driven DCF inputs of the dashboard's base scenario
    (lines 412-414, 432-447), with the latest actual store count given. *)
Definition storeDCF_params (storeStart : R) : StoreDCF.Params :=
  StoreDCF.mkParams 31606.954 0.85 0.03 storeStart 20 0.7 0.04.

(** The order of the sorted items: [a] is not earlier than [b]. *)
Definition laterFirst (a b : News.Item) : Prop := (News.ts b <= News.ts a)%Z.

(** The state of the selection loops is well formed when the seen keys
    are the keys of the results and no key occurs twice. *)
Definition selection_ok (st : list News.Item * list Js.jsstring) : Prop :=
  (forall k, In k (snd st) <-> In k (map News.key (fst st)))
  /\ NoDup (map News.key (fst st)).

(** The texts and header names that the statements about the endpoint
    mention. *)
Module Text.

Import String.StringSyntax.
Local Open Scope string_scope.

Definition allow_origin : Js.jsstring := Js.lit "Access-Control-Allow-Origin".
Definition allow_methods : Js.jsstring := Js.lit "Access-Control-Allow-Methods".
Definition allow_headers : Js.jsstring := Js.lit "Access-Control-Allow-Headers".
Definition max_age : Js.jsstring := Js.lit "Access-Control-Max-Age".
Definition vary : Js.jsstring := Js.lit "Vary".
Definition Origin : Js.jsstring := Js.lit "Origin".
Definition GET : Js.jsstring := Js.lit "GET".
Definition OPTIONS : Js.jsstring := Js.lit "OPTIONS".
Definition POST : Js.jsstring := Js.lit "POST".
Definition get_options : Js.jsstring := Js.lit "GET, OPTIONS".
Definition content_type : Js.jsstring := Js.lit "Content-Type".
Definition seconds : Js.jsstring := Js.lit "3600".
Definition https : Js.jsstring := Js.lit "https://".
Definition http : Js.jsstring := Js.lit "http://".
Definition origin_not_allowed : Js.jsstring := Js.lit "Origin not allowed".
Definition method_not_allowed : Js.jsstring := Js.lit "Method not allowed".
Definition error_fetching : Js.jsstring := Js.lit "Error fetching sentiments".
Definition empty : Js.jsstring := Js.lit "".
Definition true_ : Js.jsstring := Js.lit "true".
Definition one_slash : Js.jsstring := Js.lit "/".
Definition localhost : Js.jsstring := Js.lit "http://localhost:3000".
Definition loopback : Js.jsstring := Js.lit "http://127.0.0.1:3000".
Definition evil : Js.jsstring := Js.lit "https://evil.example".
Definition app_host : Js.jsstring := Js.lit "pnj.example".
Definition owner_repo : Js.jsstring := Js.lit "Khongdaidong/PNJ".
Definition repo : Js.jsstring := Js.lit "PNJ".

End Text.

(** * Properties *)

(** ** Facts about the helpers *)

Lemma gt0_true (x : R) : 0 < x -> gt0 x = true.
Proof. intros H; unfold gt0; destruct (Rlt_dec 0 x); [reflexivity | lra]. Qed.

Lemma gt0_false (x : R) : x <= 0 -> gt0 x = false.
Proof. intros H; unfold gt0; destruct (Rlt_dec 0 x); [lra | reflexivity]. Qed.

Lemma gt0_spec (x : R) : gt0 x = true <-> 0 < x.
Proof.
  unfold gt0; destruct (Rlt_dec 0 x); split; intros; try assumption;
    try reflexivity; try discriminate; lra.
Qed.

Lemma Math_max_ge_l (x y : R) : x <= Math_max x y.
Proof. apply Rmax_l. Qed.

Lemma Math_max_ge_r (x y : R) : y <= Math_max x y.
Proof. apply Rmax_r. Qed.

Lemma clamp_bounds (x lo hi : R) : lo <= hi -> lo <= clamp x lo hi <= hi.
Proof.
  intros H; unfold clamp, Math_min, Math_max; split.
  - apply Rmin_glb; [assumption | apply Rmax_l].
  - apply Rmin_l.
Qed.

Lemma clamp_id (x lo hi : R) : lo <= x <= hi -> clamp x lo hi = x.
Proof.
  intros [H1 H2]; unfold clamp, Math_min, Math_max.
  rewrite (Rmax_right lo x) by assumption.
  now rewrite Rmin_right.
Qed.

Lemma clamp_mono (x x' lo hi : R) : x <= x' -> clamp x lo hi <= clamp x' lo hi.
Proof.
  intros H; unfold clamp, Math_min, Math_max.
  apply Rle_min_compat_l, Rle_max_compat_l, H.
Qed.

Lemma div_nonneg (x d : R) : 0 <= x -> 0 < d -> 0 <= x / d.
Proof.
  intros Hx Hd; unfold Rdiv.
  apply Rmult_le_pos; [assumption | left; now apply Rinv_0_lt_compat].
Qed.

Lemma div_le_compat (x x' d : R) : x <= x' -> 0 < d -> x / d <= x' / d.
Proof.
  intros Hx Hd; unfold Rdiv.
  apply Rmult_le_compat_r; [left; now apply Rinv_0_lt_compat | assumption].
Qed.

Lemma div_chk_Some (x d : R) : d <> 0 -> div_chk x d = Some (x / d).
Proof. intros H; unfold div_chk; destruct (Req_dec_T d 0); [contradiction | reflexivity]. Qed.

Lemma div_chk_None (x d : R) : d = 0 -> div_chk x d = None.
Proof. intros H; unfold div_chk; destruct (Req_dec_T d 0); [reflexivity | contradiction]. Qed.

Lemma is_int_INR (n : nat) : is_int (INR n) = true /\ Zfloor (INR n) = Z.of_nat n.
Proof.
  rewrite INR_IZR_INZ; unfold is_int; rewrite ZfloorZ.
  destruct (Req_dec_T (IZR (Z.of_nat n)) (IZR (Z.of_nat n))); [auto | contradiction].
Qed.

(** With a natural exponent [Math_pow] is the iterated product. *)
Lemma Math_pow_nat (x : R) (n : nat) : Math_pow x (INR n) = x ^ n.
Proof.
  unfold Math_pow; destruct (Rlt_dec 0 x) as [Hx | Hx].
  - now apply Rpower_pow.
  - destruct (is_int_INR n) as [-> ->]; symmetry; apply pow_powerRZ.
Qed.

Lemma Math_pow_5 (x : R) : Math_pow x 5 = x ^ 5.
Proof. rewrite <- Math_pow_nat; f_equal; simpl; lra. Qed.

Lemma Math_pow_nonneg (x a : R) : 0 <= x -> 0 < a -> 0 <= Math_pow x a.
Proof.
  intros Hx Ha; unfold Math_pow; destruct (Rlt_dec 0 x) as [H | H].
  - left; unfold Rpower; apply exp_pos.
  - assert (x = 0) by lra; subst x.
    destruct (is_int a); [| lra].
    destruct (Zfloor a) as [| q | q]; simpl; try lra.
    + rewrite pow_i; [lra | lia].
    + rewrite pow_i; [rewrite Rinv_0; lra | lia].
Qed.

Lemma Math_pow_0_l (a : R) : 0 < a -> Math_pow 0 a = 0.
Proof.
  intros Ha; unfold Math_pow.
  destruct (Rlt_dec 0 0) as [H | _]; [lra |].
  unfold is_int; destruct (Req_dec_T a (IZR (Zfloor a))) as [E | _]; [| reflexivity].
  assert (Hp : (0 < Zfloor a)%Z) by (apply lt_IZR; lra).
  destruct (Zfloor a) as [| q | q]; try lia.
  simpl; apply pow_i; lia.
Qed.

Lemma Math_pow_1_l (a : R) : Math_pow 1 a = 1.
Proof.
  unfold Math_pow; destruct (Rlt_dec 0 1) as [_ | H]; [| lra].
  unfold Rpower; rewrite ln_1, Rmult_0_r; apply exp_0.
Qed.

Lemma Math_pow_1_r (x : R) : 0 < x -> Math_pow x 1 = x.
Proof.
  intros Hx; unfold Math_pow; destruct (Rlt_dec 0 x) as [_ | H]; [| lra].
  now apply Rpower_1.
Qed.

(** [Math_pow] is non-decreasing in a non-negative base, for a positive
    exponent. *)
Lemma Math_pow_mono (x x' a : R) :
  0 <= x -> x <= x' -> 0 < a -> Math_pow x a <= Math_pow x' a.
Proof.
  intros Hx Hxx Ha.
  destruct (Rle_lt_or_eq_dec 0 x Hx) as [Hpos | <-].
  - unfold Math_pow.
    destruct (Rlt_dec 0 x) as [_ | H]; [| lra].
    destruct (Rlt_dec 0 x') as [_ | H]; [| lra].
    apply Rle_Rpower_l; lra.
  - rewrite Math_pow_0_l by assumption.
    apply Math_pow_nonneg; assumption.
Qed.

Lemma Forall_mapi_from {A B : Type} (P : B -> Prop) (f : A -> nat -> B)
  (l : list A) : forall k,
  (forall a n, P (f a n)) -> Forall P (mapi_from f k l).
Proof.
  induction l as [| a l IH]; intros k H; simpl; constructor; auto.
Qed.

Lemma mapi_chk_from_total {A B : Type} (f : A -> nat -> option B)
  (h : A -> nat -> B) (l : list A) : forall k,
  (forall a n, f a n = Some (h a n)) ->
  mapi_chk_from f k l = Some (mapi_from h k l).
Proof.
  induction l as [| a l IH]; intros k H; simpl; [reflexivity |].
  rewrite H; simpl; rewrite IH by assumption; reflexivity.
Qed.

(** ** The FCFF engine *)

Lemma rocSafe_pos (i : DCF.DCFInputs) : 0 < DCF.rocSafe i.
Proof.
  unfold DCF.rocSafe.
  pose proof (Math_max_ge_r (DCF.roc i) 1e-6); lra.
Qed.

Lemma spread_floor (i : DCF.DCFInputs) : 0.001 <= DCF.spread i.
Proof. unfold DCF.spread; apply Math_max_ge_l. Qed.

Lemma discount_nonzero (i : DCF.DCFInputs) (n : nat) :
  1 + DCF.wacc i <> 0 -> Math_pow (1 + DCF.wacc i) (INR n) <> 0.
Proof. intros H; rewrite Math_pow_nat; now apply pow_nonzero. Qed.

Lemma dcfRow_chk_total (i : DCF.DCFInputs) (y idx : nat) :
  1 + DCF.wacc i <> 0 -> DCF.dcfRow_chk i y idx = Some (DCF.dcfRow i y idx).
Proof.
  intros Hw; unfold DCF.dcfRow_chk, DCF.dcfRow.
  destruct (gt0 (DCF.prevRevAt i idx)) eqn:Hp.
  - apply gt0_spec in Hp.
    rewrite div_chk_Some by lra; simpl.
    rewrite div_chk_Some by (pose proof (rocSafe_pos i); lra); simpl.
    rewrite div_chk_Some by (now apply discount_nonzero); reflexivity.
  - simpl.
    rewrite div_chk_Some by (pose proof (rocSafe_pos i); lra); simpl.
    rewrite div_chk_Some by (now apply discount_nonzero); reflexivity.
Qed.

Lemma dcfRow_chk_undiscounted (i : DCF.DCFInputs) (y idx : nat) :
  1 + DCF.wacc i = 0 -> DCF.dcfRow_chk i y idx = None.
Proof.
  intros Hw; unfold DCF.dcfRow_chk.
  assert (Hd : Math_pow (1 + DCF.wacc i) (INR (idx + 1)) = 0).
  { rewrite Math_pow_nat, Hw; apply pow_i; lia. }
  destruct (gt0 (DCF.prevRevAt i idx)) eqn:Hp.
  - apply gt0_spec in Hp.
    rewrite div_chk_Some by lra; simpl.
    rewrite div_chk_Some by (pose proof (rocSafe_pos i); lra); simpl.
    now rewrite div_chk_None.
  - simpl.
    rewrite div_chk_Some by (pose proof (rocSafe_pos i); lra); simpl.
    now rewrite div_chk_None.
Qed.

(** C1 (as amended): in exact arithmetic every quotient of [dcfFCFF] has
    a non-zero divisor as soon as [wacc <> -1]: the divisions by ROC, by
    the spread, by the previous revenue and by the share count are
    guarded, and the discount factor divides by [(1 + wacc)^t].  The
    checked run then returns the result of [dcfFCFF]. *)
Theorem dcfFCFF_divisions_defined (i : DCF.DCFInputs) :
  1 + DCF.wacc i <> 0 -> DCF.dcfFCFF_chk i = Some (DCF.dcfFCFF i).
Proof.
  intros Hw; unfold DCF.dcfFCFF_chk, mapi_chk.
  rewrite (mapi_chk_from_total _ (DCF.dcfRow i))
    by (intros; now apply dcfRow_chk_total).
  cbn [bind].
  rewrite div_chk_Some by (pose proof (rocSafe_pos i); lra); cbn [bind].
  rewrite div_chk_Some by (pose proof (spread_floor i); unfold DCF.spread in *; lra).
  cbn [bind].
  rewrite div_chk_Some by (rewrite Math_pow_5; now apply pow_nonzero).
  cbn [bind].
  unfold DCF.dcfFCFF.
  destruct (gt0 (DCF.shares i)) eqn:Hs.
  - apply gt0_spec in Hs. rewrite div_chk_Some by lra. reflexivity.
  - reflexivity.
Qed.

Lemma dcfFCFF_divisions_defined_witness :
  DCF.dcfFCFF_chk dcf_default = Some (DCF.dcfFCFF dcf_default).
Proof. apply dcfFCFF_divisions_defined; simpl; lra. Defined.

(** With [wacc = -1] the first discount factor already has no value. *)
Lemma dcfFCFF_chk_undiscounted (i : DCF.DCFInputs) :
  1 + DCF.wacc i = 0 -> DCF.dcfFCFF_chk i = None.
Proof.
  intros Hw.
  unfold DCF.dcfFCFF_chk, mapi_chk, DCF.years; cbn [mapi_chk_from].
  now rewrite dcfRow_chk_undiscounted.
Qed.

(** C1 (as stated) fails: with [wacc = -1], all inputs finite, the
    discount factor of the first year divides by [(1 + wacc)^1 = 0]. *)
Lemma dcfFCFF_division_by_zero :
  Math_pow (1 + DCF.wacc dcf_undiscounted) (INR 1) = 0
  /\ DCF.dcfFCFF_chk dcf_undiscounted = None.
Proof.
  split; [rewrite Math_pow_nat; simpl; lra |].
  apply dcfFCFF_chk_undiscounted; simpl; lra.
Qed.

(** C5: the terminal value is the terminal cash flow over
    [max(0.001, wacc - gT)]; that divisor is at least 0.001, so the
    checked quotient has a value, and it is exactly 0.001 when
    [wacc = gT]. *)
Theorem terminal_value_spread_guard (i : DCF.DCFInputs) :
  DCF.tv (DCF.dcfFCFF i)
    = DCF.fcff2031 i / Math_max 0.001 (DCF.wacc i - DCF.gT i)
  /\ 0.001 <= Math_max 0.001 (DCF.wacc i - DCF.gT i)
  /\ div_chk (DCF.fcff2031 i) (Math_max 0.001 (DCF.wacc i - DCF.gT i))
     = Some (DCF.tv (DCF.dcfFCFF i))
  /\ (DCF.wacc i = DCF.gT i ->
      Math_max 0.001 (DCF.wacc i - DCF.gT i) = 0.001).
Proof.
  pose proof (spread_floor i) as Hs; unfold DCF.spread in Hs.
  repeat split.
  - assumption.
  - rewrite div_chk_Some by lra; reflexivity.
  - intros ->; unfold Math_max; apply Rmax_left; lra.
Qed.

Lemma terminal_value_spread_guard_witness :
  let i := withWacc dcf_default 0.03 in
  Math_max 0.001 (DCF.wacc i - DCF.gT i) = 0.001.
Proof.
  destruct (terminal_value_spread_guard (withWacc dcf_default 0.03))
    as (_ & _ & _ & H).
  apply H; reflexivity.
Defined.

(** C6: the reinvestment rate of each of the five explicit years and of
    the terminal year lies in [0, 0.95]; the floor on ROC makes this hold
    for every input, in particular for ROC > 0. *)
Theorem reinvestment_rate_bounded (i : DCF.DCFInputs) :
  length (DCF.rows (DCF.dcfFCFF i)) = 5%nat
  /\ Forall (fun r => 0 <= DCF.reinvRate r <= 0.95) (DCF.rows (DCF.dcfFCFF i))
  /\ 0 <= DCF.reinvTerm i <= 0.95.
Proof.
  split; [reflexivity | split].
  - unfold DCF.dcfFCFF, DCF.dcfRows, mapi; cbn [DCF.rows].
    apply Forall_mapi_from; intros a n.
    unfold DCF.dcfRow; cbn [DCF.reinvRate].
    apply clamp_bounds; lra.
  - unfold DCF.reinvTerm; apply clamp_bounds; lra.
Qed.

Lemma revSeries_cagrPath (i : DCF.DCFInputs) :
  DCF.revSeries
    (withRevSeries i (Some (cagrPath_spec (DCF.rev2025_bn i) (DCF.cagr i))))
  = DCF.revSeries (withRevSeries i None).
Proof.
  unfold DCF.revSeries, withRevSeries, cagrPath_spec, DCF.cagrSeries, mapi,
    DCF.years.
  cbn [DCF.revSeries_bn DCF.rev2025_bn DCF.cagr map length Nat.eqb mapi_from
       Nat.add].
  now rewrite !Math_pow_nat.
Qed.

(** C8: an explicit 5-entry path whose entries are
    [rev2025 * (1 + cagr)^t], [t = 1..5], gives the same result, rows and
    aggregates, as no explicit path with the same fallback CAGR. *)
Theorem explicit_cagr_path_roundtrip (i : DCF.DCFInputs) :
  DCF.dcfFCFF
    (withRevSeries i (Some (cagrPath_spec (DCF.rev2025_bn i) (DCF.cagr i))))
  = DCF.dcfFCFF (withRevSeries i None).
Proof.
  pose proof (revSeries_cagrPath i) as H.
  unfold DCF.dcfFCFF, DCF.fcff2031, DCF.nopat2031, DCF.ebit2031, DCF.rev2031,
    DCF.rev2030, DCF.reinvTerm, DCF.spread, DCF.rocSafe, DCF.dcfRows, mapi,
    DCF.years.
  cbn [mapi_from].
  unfold DCF.dcfRow, DCF.prevRevAt, DCF.rocSafe.
  rewrite H.
  reflexivity.
Qed.

(** ** Store KPI scenario *)

Section Scenario.

Variables (planRevenue_bn planNPAT_bn shares : R).
Variables (base scenario : StoreKPI.StoreKPIInputs).

Let out := StoreKPI.storeDrivenScenario planRevenue_bn planNPAT_bn shares
             base scenario.

Lemma baseEff_pos :
  0 < Math_max 1e-6
        (StoreKPI.effectiveAvgStores (StoreKPI.startStores base)
           (StoreKPI.netNewStores base) (StoreKPI.ramp base)).
Proof.
  match goal with |- 0 < Math_max ?a ?b => pose proof (Math_max_ge_l a b) end.
  lra.
Qed.

Lemma revRatio_nonneg : 0 <= StoreKPI.revRatio out.
Proof.
  unfold out, StoreKPI.storeDrivenScenario; cbn [StoreKPI.revRatio].
  destruct (gt0 planRevenue_bn); [apply Math_max_ge_l | lra].
Qed.

Lemma opLev_bounds :
  0.5 <= clamp (StoreKPI.opLeverage scenario) 0.5 2.0 <= 2.0.
Proof. apply clamp_bounds; lra. Qed.

Lemma npat_eq :
  StoreKPI.npat_bn out
  = planNPAT_bn * Math_pow (StoreKPI.revRatio out)
                    (clamp (StoreKPI.opLeverage scenario) 0.5 2.0).
Proof. reflexivity. Qed.

Lemma epsVND_eq :
  StoreKPI.epsVND out
  = if gt0 shares then (StoreKPI.npat_bn out * 1e9) / shares else 0.
Proof. reflexivity. Qed.

End Scenario.

(** C10: with a non-negative planned NPAT the scenario NPAT is
    non-negative, and so is the scenario EPS: the revenue ratio is
    floored at 0 and the exponent is clamped to [0.5, 2]. *)
Theorem scenario_earnings_nonneg
  (planRevenue_bn planNPAT_bn shares : R)
  (base scenario : StoreKPI.StoreKPIInputs) :
  0 <= planNPAT_bn ->
  let out := StoreKPI.storeDrivenScenario planRevenue_bn planNPAT_bn shares
               base scenario in
  0 <= StoreKPI.npat_bn out /\ 0 <= StoreKPI.epsVND out.
Proof.
  intros Hn out.
  assert (Hnp : 0 <= StoreKPI.npat_bn out).
  { unfold out; rewrite npat_eq.
    apply Rmult_le_pos; [assumption |].
    apply Math_pow_nonneg; [apply revRatio_nonneg |].
    pose proof (opLev_bounds scenario); lra. }
  split; [assumption |].
  unfold out in *; rewrite epsVND_eq.
  destruct (gt0 shares) eqn:Hs; [| lra].
  apply gt0_spec in Hs.
  apply div_nonneg; [| assumption].
  apply Rmult_le_pos; [assumption | lra].
Qed.

Lemma scenario_earnings_nonneg_witness :
  let out := StoreKPI.storeDrivenScenario 31606.954 1959.65 341149107
               kpi_default kpi_default in
  0 <= StoreKPI.npat_bn out /\ 0 <= StoreKPI.epsVND out.
Proof. apply scenario_earnings_nonneg; lra. Defined.

(** Case analysis on the comparisons of a goal over concrete reals. *)
Ltac Rcases :=
  repeat match goal with
    | |- context [Rle_dec ?a ?b] => destruct (Rle_dec a b); try lra
    | |- context [Rlt_dec ?a ?b] => destruct (Rlt_dec a b); try lra
    end.

Ltac Reval :=
  unfold clamp, Math_min, Math_max, Rmin, Rmax, gt0; Rcases.

(** C2 (as amended): a scenario with the stores, openings and ramp of the
    base plan and [sssgDelta = 0] returns the planned NPAT and the planned
    revenue, provided the effective average store count of the plan is at
    least the floor [1e-6] and the planned revenue is positive. *)
Theorem identity_scenario
  (planRevenue_bn planNPAT_bn shares : R)
  (base scenario : StoreKPI.StoreKPIInputs) :
  StoreKPI.startStores scenario = StoreKPI.startStores base ->
  StoreKPI.netNewStores scenario = StoreKPI.netNewStores base ->
  StoreKPI.ramp scenario = StoreKPI.ramp base ->
  StoreKPI.sssgDelta scenario = 0 ->
  1e-6 <= StoreKPI.effectiveAvgStores (StoreKPI.startStores base)
            (StoreKPI.netNewStores base) (StoreKPI.ramp base) ->
  0 < planRevenue_bn ->
  let out := StoreKPI.storeDrivenScenario planRevenue_bn planNPAT_bn shares
               base scenario in
  StoreKPI.npat_bn out = planNPAT_bn
  /\ StoreKPI.revenue_bn out = planRevenue_bn.
Proof.
  intros Hs Hn Hr Hd He Hp out.
  unfold out, StoreKPI.storeDrivenScenario.
  cbn [StoreKPI.npat_bn StoreKPI.revenue_bn].
  rewrite Hs, Hn, Hr, Hd.
  set (e := StoreKPI.effectiveAvgStores _ _ _) in *.
  assert (Hb : Math_max 1e-6 e = e) by (apply Rmax_right; lra).
  assert (Hc : Math_max 0 e = e) by (apply Rmax_right; lra).
  rewrite Hb, Hc.
  assert (Hrev : planRevenue_bn * (e / e) * (1 + 0) = planRevenue_bn)
    by (field; lra).
  rewrite Hrev, (gt0_true _ Hp).
  assert (Hq : planRevenue_bn / planRevenue_bn = 1) by (field; lra).
  rewrite Hq.
  assert (H1 : Math_max 0 1 = 1) by (apply Rmax_right; lra).
  rewrite H1, Math_pow_1_l.
  split; lra.
Qed.

Lemma identity_scenario_witness :
  let out := StoreKPI.storeDrivenScenario 31606.954 1959.65 341149107
               kpi_default kpi_default in
  StoreKPI.npat_bn out = 1959.65 /\ StoreKPI.revenue_bn out = 31606.954.
Proof.
  apply identity_scenario; try reflexivity; try lra.
  unfold StoreKPI.effectiveAvgStores, kpi_default; simpl. Reval.
Defined.

(** C2 (as stated) fails: a plan without stores has its revenue scaled by
    [0 / 1e-6 = 0], and with a planned revenue of 0 the revenue ratio is
    0, so that the scenario NPAT is 0 and not the planned NPAT. *)
Lemma identity_scenario_degenerate :
  StoreKPI.revenue_bn
    (StoreKPI.storeDrivenScenario 31606.954 1959.65 341149107
       kpi_no_stores kpi_no_stores) <> 31606.954
  /\ StoreKPI.npat_bn
       (StoreKPI.storeDrivenScenario 0 1959.65 341149107
          kpi_default kpi_default) <> 1959.65.
Proof.
  split.
  - unfold StoreKPI.storeDrivenScenario, StoreKPI.effectiveAvgStores,
      kpi_no_stores; simpl.
    Reval.
  - unfold StoreKPI.storeDrivenScenario; cbn [StoreKPI.npat_bn].
    rewrite (gt0_false 0) by lra.
    rewrite Math_pow_0_l by (pose proof (opLev_bounds kpi_default); lra).
    lra.
Qed.

Lemma effectiveAvgStores_mono (s n n' r : R) :
  n <= n' ->
  StoreKPI.effectiveAvgStores s n r <= StoreKPI.effectiveAvgStores s n' r.
Proof.
  intros H; unfold StoreKPI.effectiveAvgStores.
  pose proof (clamp_bounds r 0 1 ltac:(lra)) as [Hc _].
  apply Rplus_le_compat_l.
  apply Rmult_le_compat_r; [assumption | lra].
Qed.

Section MoreStores.

Variables (planRevenue_bn planNPAT_bn shares : R).
Variables (base scenario : StoreKPI.StoreKPIInputs) (n' : R).
Hypothesis Hn : StoreKPI.netNewStores scenario <= n'.

Let out := StoreKPI.storeDrivenScenario planRevenue_bn planNPAT_bn shares
             base scenario.
Let out' := StoreKPI.storeDrivenScenario planRevenue_bn planNPAT_bn shares
              base (withNetNewStores scenario n').

Lemma avgStoresEff_mono : StoreKPI.avgStoresEff out <= StoreKPI.avgStoresEff out'.
Proof.
  unfold out, out', StoreKPI.storeDrivenScenario, withNetNewStores.
  cbn [StoreKPI.avgStoresEff StoreKPI.startStores StoreKPI.netNewStores
       StoreKPI.ramp].
  unfold Math_max; apply Rle_max_compat_l.
  now apply effectiveAvgStores_mono.
Qed.

Lemma avgStoresEff_nonneg : 0 <= StoreKPI.avgStoresEff out.
Proof.
  unfold out, StoreKPI.storeDrivenScenario; cbn [StoreKPI.avgStoresEff].
  apply Math_max_ge_l.
Qed.

Lemma revenue_eq :
  StoreKPI.revenue_bn out
  = planRevenue_bn * (1 + StoreKPI.sssgDelta scenario)
    * (StoreKPI.avgStoresEff out
       / Math_max 1e-6
           (StoreKPI.effectiveAvgStores (StoreKPI.startStores base)
              (StoreKPI.netNewStores base) (StoreKPI.ramp base)))
  /\ StoreKPI.revenue_bn out'
     = planRevenue_bn * (1 + StoreKPI.sssgDelta scenario)
       * (StoreKPI.avgStoresEff out'
          / Math_max 1e-6
              (StoreKPI.effectiveAvgStores (StoreKPI.startStores base)
                 (StoreKPI.netNewStores base) (StoreKPI.ramp base))).
Proof.
  pose proof (baseEff_pos base) as Hb.
  unfold out, out', StoreKPI.storeDrivenScenario, withNetNewStores.
  cbn [StoreKPI.avgStoresEff StoreKPI.revenue_bn StoreKPI.startStores
       StoreKPI.netNewStores StoreKPI.ramp StoreKPI.sssgDelta].
  split; field; lra.
Qed.

Lemma revenue_mono :
  0 <= planRevenue_bn * (1 + StoreKPI.sssgDelta scenario) ->
  StoreKPI.revenue_bn out <= StoreKPI.revenue_bn out'.
Proof.
  intros Hs.
  destruct revenue_eq as [-> ->].
  apply Rmult_le_compat_l; [assumption |].
  apply div_le_compat; [apply avgStoresEff_mono | apply baseEff_pos].
Qed.

Lemma revRatio_eq :
  StoreKPI.revRatio out
  = (if gt0 planRevenue_bn
     then Math_max 0 (StoreKPI.revenue_bn out / planRevenue_bn) else 0)
  /\ StoreKPI.revRatio out'
     = (if gt0 planRevenue_bn
        then Math_max 0 (StoreKPI.revenue_bn out' / planRevenue_bn) else 0).
Proof. split; reflexivity. Qed.

Lemma revRatio_mono : StoreKPI.revRatio out <= StoreKPI.revRatio out'.
Proof.
  destruct revRatio_eq as [-> ->].
  destruct (gt0 planRevenue_bn) eqn:Hp; [| lra].
  apply gt0_spec in Hp.
  destruct (Rle_dec 0 (1 + StoreKPI.sssgDelta scenario)) as [Hd | Hd].
  - unfold Math_max; apply Rle_max_compat_l.
    apply div_le_compat; [| assumption].
    apply revenue_mono. apply Rmult_le_pos; lra.
  - (* both ratios are non-positive and floored at 0 *)
    assert (Hneg : forall e, 0 <= e ->
      planRevenue_bn * (1 + StoreKPI.sssgDelta scenario)
      * (e / Math_max 1e-6
               (StoreKPI.effectiveAvgStores (StoreKPI.startStores base)
                  (StoreKPI.netNewStores base) (StoreKPI.ramp base)))
      / planRevenue_bn <= 0).
    { intros e He.
      pose proof (div_nonneg e _ He (baseEff_pos base)) as Hq.
      set (q := e / _) in *.
      replace (planRevenue_bn * (1 + StoreKPI.sssgDelta scenario) * q
               / planRevenue_bn)
        with ((1 + StoreKPI.sssgDelta scenario) * q) by (field; lra).
      nra. }
    destruct revenue_eq as [-> ->].
    unfold Math_max.
    rewrite !Rmax_left; try lra.
    + apply Hneg. eapply Rle_trans; [apply avgStoresEff_nonneg | apply avgStoresEff_mono].
    + apply Hneg, avgStoresEff_nonneg.
Qed.

Lemma npat_mono :
  0 <= planNPAT_bn -> StoreKPI.npat_bn out <= StoreKPI.npat_bn out'.
Proof.
  intros Hp; unfold out, out'; rewrite !npat_eq.
  apply Rmult_le_compat_l; [assumption |].
  fold out out'.
  replace (StoreKPI.opLeverage (withNetNewStores scenario n'))
    with (StoreKPI.opLeverage scenario) by reflexivity.
  apply Math_pow_mono.
  - apply revRatio_nonneg.
  - apply revRatio_mono.
  - pose proof (opLev_bounds scenario); lra.
Qed.

End MoreStores.

(** C3 (as amended): raising [netNewStores], all else fixed, never lowers
    [avgStoresEff]; it never lowers [revenue_bn] when
    [planRevenue_bn * (1 + sssgDelta) >= 0], and never lowers [npat_bn]
    when [planNPAT_bn >= 0].  The operating leverage is clamped to
    [0.5, 2], so no condition on it is needed. *)
Theorem more_stores_monotone
  (planRevenue_bn planNPAT_bn shares : R)
  (base scenario : StoreKPI.StoreKPIInputs) (n' : R) :
  StoreKPI.netNewStores scenario <= n' ->
  let out := StoreKPI.storeDrivenScenario planRevenue_bn planNPAT_bn shares
               base scenario in
  let out' := StoreKPI.storeDrivenScenario planRevenue_bn planNPAT_bn shares
                base (withNetNewStores scenario n') in
  StoreKPI.avgStoresEff out <= StoreKPI.avgStoresEff out'
  /\ (0 <= planRevenue_bn * (1 + StoreKPI.sssgDelta scenario) ->
      StoreKPI.revenue_bn out <= StoreKPI.revenue_bn out')
  /\ (0 <= planNPAT_bn -> StoreKPI.npat_bn out <= StoreKPI.npat_bn out').
Proof.
  intros Hn out out'; repeat split.
  - now apply avgStoresEff_mono.
  - now apply revenue_mono.
  - now apply npat_mono.
Qed.

Lemma more_stores_monotone_witness :
  let out := StoreKPI.storeDrivenScenario 31606.954 1959.65 341149107
               kpi_default kpi_default in
  let out' := StoreKPI.storeDrivenScenario 31606.954 1959.65 341149107
                kpi_default (withNetNewStores kpi_default 30) in
  StoreKPI.avgStoresEff out <= StoreKPI.avgStoresEff out'
  /\ StoreKPI.revenue_bn out <= StoreKPI.revenue_bn out'
  /\ StoreKPI.npat_bn out <= StoreKPI.npat_bn out'.
Proof.
  destruct (more_stores_monotone 31606.954 1959.65 341149107 kpi_default
              kpi_default 30) as (H1 & H2 & H3); [simpl; lra |].
  repeat split.
  - exact H1.
  - apply H2; simpl; lra.
  - apply H3; lra.
Defined.

Lemma effectiveAvgStores_default (n : R) :
  StoreKPI.effectiveAvgStores 429 n 0.7 = 429 + n / 2 * 0.7.
Proof.
  unfold StoreKPI.effectiveAvgStores.
  rewrite (clamp_id 0.7) by lra.
  unfold Math_max; now rewrite (Rmax_right 0 429) by lra.
Qed.

(** C3 (as stated) fails.  With same-store sales falling by more than
    100% the revenue is negative and more stores lower it; with a planned
    loss more stores deepen the loss. *)
Lemma more_stores_not_monotone :
  StoreKPI.revenue_bn
    (StoreKPI.storeDrivenScenario 31606.954 1959.65 341149107 kpi_default
       (withNetNewStores kpi_collapse 30))
  < StoreKPI.revenue_bn
      (StoreKPI.storeDrivenScenario 31606.954 1959.65 341149107 kpi_default
         kpi_collapse)
  /\ StoreKPI.npat_bn
       (StoreKPI.storeDrivenScenario 31606.954 (-1959.65) 341149107
          kpi_default (withNetNewStores kpi_default 30))
     < StoreKPI.npat_bn
         (StoreKPI.storeDrivenScenario 31606.954 (-1959.65) 341149107
            kpi_default kpi_default).
Proof.
  assert (H20 : Math_max 0 (StoreKPI.effectiveAvgStores 429 20 0.7)
                = 429 + 20 / 2 * 0.7).
  { rewrite effectiveAvgStores_default; apply Rmax_right; lra. }
  assert (H30 : Math_max 0 (StoreKPI.effectiveAvgStores 429 30 0.7)
                = 429 + 30 / 2 * 0.7).
  { rewrite effectiveAvgStores_default; apply Rmax_right; lra. }
  assert (Hb : Math_max 1e-6 (StoreKPI.effectiveAvgStores 429 20 0.7)
               = 429 + 20 / 2 * 0.7).
  { rewrite effectiveAvgStores_default; apply Rmax_right; lra. }
  split.
  - unfold StoreKPI.storeDrivenScenario, withNetNewStores, kpi_collapse,
      kpi_default.
    cbn [StoreKPI.revenue_bn StoreKPI.startStores StoreKPI.netNewStores
         StoreKPI.ramp StoreKPI.sssgDelta].
    rewrite Hb, H20, H30. lra.
  - unfold StoreKPI.storeDrivenScenario, withNetNewStores, kpi_default.
    cbn [StoreKPI.npat_bn StoreKPI.startStores StoreKPI.netNewStores
         StoreKPI.ramp StoreKPI.sssgDelta StoreKPI.opLeverage].
    rewrite Hb, H20, H30.
    rewrite (gt0_true 31606.954) by lra.
    rewrite (clamp_id 1) by lra.
    set (r30 := Math_max 0 _). set (r20 := Math_max 0 _).
    assert (E20 : r20 = 1).
    { unfold r20, Math_max. rewrite Rmax_right; [field | ]; lra. }
    assert (E30 : r30 = (429 + 30 / 2 * 0.7) / (429 + 20 / 2 * 0.7)).
    { unfold r30, Math_max. 
      assert (Hq : 31606.954 * ((429 + 30 / 2 * 0.7) / (429 + 20 / 2 * 0.7))
                     * (1 + 0) / 31606.954
                   = (429 + 30 / 2 * 0.7) / (429 + 20 / 2 * 0.7)) by (field; lra).
      rewrite Hq. apply Rmax_right. apply div_nonneg; lra. }
    rewrite E20, E30, Math_pow_1_l.
    rewrite Math_pow_1_r by (apply Rdiv_lt_0_compat; lra).
    assert (1 < (429 + 30 / 2 * 0.7) / (429 + 20 / 2 * 0.7)).
    { set (b := 429 + 20 / 2 * 0.7).
      assert (Hb0 : 0 < b) by (unfold b; lra).
      assert (Hi : 0 < / b) by now apply Rinv_0_lt_compat.
      assert (Hbi : b * / b = 1) by (apply Rinv_r; lra).
      unfold Rdiv; fold b.
      replace (429 + 30 * / 2 * 0.7) with (b + 3.5) by (unfold b; lra).
      rewrite Rmult_plus_distr_r, Hbi. nra. }
    lra.
Qed.

(** ** Store-driven revenue path *)

Lemma storeDCF_rows (p : StoreDCF.Params) :
  exists p1 p2 p3 p4 p5,
    StoreDCF.rows (StoreDCF.buildStoreDCFSeries p)
    = [StoreDCF.storeRow p 2026 0 p1; StoreDCF.storeRow p 2027 1 p2;
       StoreDCF.storeRow p 2028 2 p3; StoreDCF.storeRow p 2029 3 p4;
       StoreDCF.storeRow p 2030 4 p5].
Proof.
  unfold StoreDCF.buildStoreDCFSeries, StoreDCF.years.
  cbn [StoreDCF.forEachi_from StoreDCF.yearStep app StoreDCF.rows].
  do 5 eexists; reflexivity.
Qed.

Lemma storeDCF_row_at (p : StoreDCF.Params) (t : nat) :
  (1 <= t <= 5)%nat ->
  exists prevTotal,
    nth_error (StoreDCF.rows (StoreDCF.buildStoreDCFSeries p)) (t - 1)
    = Some (StoreDCF.storeRow p (2025 + t) (t - 1) prevTotal).
Proof.
  intros Ht.
  destruct (storeDCF_rows p) as (p1 & p2 & p3 & p4 & p5 & ->).
  assert (Hc : t = 1%nat \/ t = 2%nat \/ t = 3%nat \/ t = 4%nat \/ t = 5%nat)
    by lia.
  destruct Hc as [-> | [-> | [-> | [-> | ->]]]]; eexists; reflexivity.
Qed.

(** C9 (as amended): for [t = 1..5] the row of year [2025 + t] follows the
    stated formulas with the store count floored and kept non-negative,
    [max(0, floor(storeStart))], the yearly openings floored,
    [floor(netNewPerYear)], the ramp clamped to [0, 1] and SSSG clamped
    to [-5%, 20%]. *)
Theorem store_path_row_formula (p : StoreDCF.Params) (t : nat) :
  (1 <= t <= 5)%nat ->
  let s0 := Math_max 0 (Math_floor (StoreDCF.storeStart p)) in
  let n := Math_floor (StoreDCF.netNewPerYear p) in
  let rmp := clamp (StoreDCF.ramp p) 0 1 in
  let sssg := clamp (StoreDCF.sssgAbs p) (-0.05) 0.20 in
  exists r,
    nth_error (StoreDCF.rows (StoreDCF.buildStoreDCFSeries p)) (t - 1) = Some r
    /\ StoreDCF.storesStart r = s0 + n * (INR t - 1)
    /\ StoreDCF.storesEnd r = StoreDCF.storesStart r + n
    /\ StoreDCF.avgStoresEff r = StoreDCF.storesStart r + (n / 2) * rmp
    /\ StoreDCF.retailRev_bn r
       = StoreDCF.matureRetailRevPerEffStore p * StoreDCF.avgStoresEff r
         * (1 + sssg) ^ t
    /\ -0.05 <= sssg <= 0.20.
Proof.
  intros Ht s0 n rmp sssg.
  destruct (storeDCF_row_at p t Ht) as [prev Hr].
  eexists; split; [exact Hr |].
  unfold StoreDCF.storeRow.
  cbn [StoreDCF.storesStart StoreDCF.storesEnd StoreDCF.avgStoresEff
       StoreDCF.retailRev_bn].
  replace (t - 1 + 1)%nat with t by lia.
  rewrite Math_pow_nat.
  repeat split; try reflexivity; apply clamp_bounds; lra.
Qed.

(** A non-negative whole store count, whole yearly openings and a ramp
    within [0, 1] are used as supplied. *)
Lemma store_path_inputs_unchanged (p : StoreDCF.Params) (z m : Z) :
  StoreDCF.storeStart p = IZR z -> (0 <= z)%Z ->
  StoreDCF.netNewPerYear p = IZR m ->
  0 <= StoreDCF.ramp p <= 1 ->
  Math_max 0 (Math_floor (StoreDCF.storeStart p)) = StoreDCF.storeStart p
  /\ Math_floor (StoreDCF.netNewPerYear p) = StoreDCF.netNewPerYear p
  /\ clamp (StoreDCF.ramp p) 0 1 = StoreDCF.ramp p.
Proof.
  intros -> Hz -> Hr; unfold Math_floor; rewrite !ZfloorZ.
  repeat split.
  - apply Rmax_right, IZR_le, Hz.
  - now apply clamp_id.
Qed.

Lemma store_path_row_formula_witness :
  let p := storeDCF_params 429 in
  let s0 := Math_max 0 (Math_floor (StoreDCF.storeStart p)) in
  let n := Math_floor (StoreDCF.netNewPerYear p) in
  let rmp := clamp (StoreDCF.ramp p) 0 1 in
  let sssg := clamp (StoreDCF.sssgAbs p) (-0.05) 0.20 in
  exists r,
    nth_error (StoreDCF.rows (StoreDCF.buildStoreDCFSeries p)) (3 - 1) = Some r
    /\ StoreDCF.storesStart r = s0 + n * (INR 3 - 1)
    /\ StoreDCF.storesEnd r = StoreDCF.storesStart r + n
    /\ StoreDCF.avgStoresEff r = StoreDCF.storesStart r + (n / 2) * rmp
    /\ StoreDCF.retailRev_bn r
       = StoreDCF.matureRetailRevPerEffStore p * StoreDCF.avgStoresEff r
         * (1 + sssg) ^ 3
    /\ -0.05 <= sssg <= 0.20.
Proof. apply (store_path_row_formula (storeDCF_params 429) 3); lia. Defined.

(** C9 (as stated) fails: with a caller-supplied store count of -5 the
    first row starts from 0 stores, not from -5. *)
Lemma store_path_row_floors_store_count :
  exists r,
    nth_error (StoreDCF.rows (StoreDCF.buildStoreDCFSeries (storeDCF_params (-5))))
      0 = Some r
    /\ StoreDCF.storesStart r
       <> StoreDCF.storeStart (storeDCF_params (-5))
          + StoreDCF.netNewPerYear (storeDCF_params (-5)) * (1 - 1).
Proof.
  destruct (storeDCF_rows (storeDCF_params (-5))) as (p1 & p2 & p3 & p4 & p5 & E).
  rewrite E; eexists; split; [reflexivity |].
  unfold StoreDCF.storeRow, StoreDCF.storeStart0, StoreDCF.nn, Math_floor,
    storeDCF_params.
  cbn [StoreDCF.storesStart StoreDCF.storeStart StoreDCF.netNewPerYear].
  rewrite !ZfloorZ.
  unfold Math_max; rewrite Rmax_left by lra.
  simpl; lra.
Qed.

(** ** Degenerate share counts *)

(** C7: with [shares <= 0] the plan EPS, the book value per share, the
    scenario EPS and the DCF value per share are all exactly 0. *)
Theorem no_shares_no_per_share_value (s : R) :
  s <= 0 ->
  (forall planNPAT_bn, planEPSVND planNPAT_bn s = 0)
  /\ (forall totalEquity_bn, bvpsVND totalEquity_bn s = 0)
  /\ (forall planRevenue_bn planNPAT_bn base scenario,
        StoreKPI.epsVND
          (StoreKPI.storeDrivenScenario planRevenue_bn planNPAT_bn s base
             scenario) = 0)
  /\ (forall i, DCF.shares i = s -> DCF.vps (DCF.dcfFCFF i) = 0).
Proof.
  intros Hs; repeat split; intros.
  - unfold planEPSVND; now rewrite gt0_false.
  - unfold bvpsVND; now rewrite gt0_false.
  - rewrite epsVND_eq; now rewrite gt0_false.
  - unfold DCF.dcfFCFF; cbn [DCF.vps]. rewrite gt0_false; [reflexivity | lra].
Qed.

Lemma no_shares_no_per_share_value_witness :
  planEPSVND 1959.65 0 = 0
  /\ bvpsVND 11256.955 0 = 0
  /\ StoreKPI.epsVND
       (StoreKPI.storeDrivenScenario 31606.954 1959.65 0 kpi_default
          kpi_default) = 0
  /\ DCF.vps (DCF.dcfFCFF (DCF.mkDCFInputs 31606.954 0.08 None 0.07 0.2 0.18
                             0.09 0.03 1801.342 0)) = 0.
Proof.
  destruct (no_shares_no_per_share_value 0 ltac:(lra)) as (H1 & H2 & H3 & H4).
  repeat split; [apply H1 | apply H2 | apply H3 | apply H4; reflexivity].
Defined.

(** ** Blended valuation *)

(** C4 (as amended): when the enabled raw weights have a positive sum the
    normalized weights sum to 1; when that sum is not positive, in
    particular when no method is enabled, every normalized weight is 0;
    and with all three methods disabled the blended value is 0. *)
Theorem weights_normalized (usePE useDCF usePB : bool) (wPE wDCF wPB : R) :
  let s := (if usePE then wPE else 0) + (if useDCF then wDCF else 0)
           + (if usePB then wPB else 0) in
  let nw := Blend.normalizedWeights usePE useDCF usePB wPE wDCF wPB in
  (0 < s -> Blend.wPE nw + Blend.wDCF nw + Blend.wPB nw = 1)
  /\ (s <= 0 -> Blend.wPE nw = 0 /\ Blend.wDCF nw = 0 /\ Blend.wPB nw = 0)
  /\ (usePE = false -> useDCF = false -> usePB = false ->
      (Blend.wPE nw = 0 /\ Blend.wDCF nw = 0 /\ Blend.wPB nw = 0)
      /\ forall tp vps pbValue price,
           Blend.v (Blend.blendedValue usePE useDCF usePB nw tp vps pbValue
                      price) = 0).
Proof.
  intros s nw; unfold nw, Blend.normalizedWeights; fold s.
  repeat split.
  - intros Hs; destruct (Rle_dec s 0) as [H | H]; [lra |].
    cbn [Blend.wPE Blend.wDCF Blend.wPB].
    set (a := if usePE then wPE else 0) in *.
    set (b := if useDCF then wDCF else 0) in *.
    set (c := if usePB then wPB else 0) in *.
    subst s; field; lra.
  - destruct (Rle_dec s 0); [reflexivity | lra].
  - destruct (Rle_dec s 0); [reflexivity | lra].
  - destruct (Rle_dec s 0); [reflexivity | lra].
  - subst; unfold s; destruct (Rle_dec (0 + 0 + 0) 0); [reflexivity | lra].
  - subst; unfold s; destruct (Rle_dec (0 + 0 + 0) 0); [reflexivity | lra].
  - subst; unfold s; destruct (Rle_dec (0 + 0 + 0) 0); [reflexivity | lra].
  - intros; subst; unfold Blend.blendedValue; cbn [Blend.v]; lra.
Qed.

Lemma weights_normalized_witness :
  let nw := Blend.normalizedWeights true true true 60 30 10 in
  Blend.wPE nw + Blend.wDCF nw + Blend.wPB nw = 1.
Proof.
  destruct (weights_normalized true true true 60 30 10) as (H & _).
  apply H; lra.
Defined.

(** C4 (as stated) fails: with one method enabled and its raw weight at 0
    the normalized weights are all 0 and do not sum to 1; and over
    binary64 the default weights 60/30/10, all enabled, sum to
    0.99999999999999989. *)
Lemma weights_enabled_but_zero :
  (let nw := Blend.normalizedWeights true false false 0 30 10 in
   Blend.wPE nw + Blend.wDCF nw + Blend.wPB nw <> 1)
  /\ Binary64.sumsToOne Binary64.defaultWeights = false.
Proof.
  split; [| vm_compute; reflexivity].
  unfold Blend.normalizedWeights; simpl.
  destruct (Rle_dec (0 + 0 + 0) 0); simpl; lra.
Qed.

(** * Further properties of the engine *)

(** ** The FCFF engine: revenue path, cash flows, discounting *)

Lemma dcfRows_unfold (i : DCF.DCFInputs) :
  DCF.dcfRows i
  = [DCF.dcfRow i 2026 0; DCF.dcfRow i 2027 1; DCF.dcfRow i 2028 2;
     DCF.dcfRow i 2029 3; DCF.dcfRow i 2030 4].
Proof. reflexivity. Qed.

Lemma dcfFCFF_revSeries_ext (i : DCF.DCFInputs) (a b : option (list R)) :
  DCF.revSeries (withRevSeries i a) = DCF.revSeries (withRevSeries i b) ->
  DCF.dcfFCFF (withRevSeries i a) = DCF.dcfFCFF (withRevSeries i b).
Proof.
  intros H.
  unfold DCF.dcfFCFF, DCF.fcff2031, DCF.nopat2031, DCF.ebit2031, DCF.rev2031,
    DCF.rev2030, DCF.reinvTerm, DCF.spread, DCF.rocSafe, DCF.dcfRows, mapi,
    DCF.years.
  cbn [mapi_from].
  unfold DCF.dcfRow, DCF.prevRevAt, DCF.rocSafe.
  rewrite H.
  reflexivity.
Qed.

(** X1: an explicit revenue path that does not have exactly five entries
    (an empty one included) is ignored: the result is that of the
    fallback CAGR. *)
Theorem wrong_length_path_ignored (i : DCF.DCFInputs) (l : list R) :
  length l <> 5%nat ->
  DCF.dcfFCFF (withRevSeries i (Some l)) = DCF.dcfFCFF (withRevSeries i None).
Proof.
  intros Hl; apply dcfFCFF_revSeries_ext.
  unfold DCF.revSeries, withRevSeries; cbn [DCF.revSeries_bn].
  destruct (Nat.eqb (length l) 5) eqn:E; [| reflexivity].
  apply Nat.eqb_eq in E; contradiction.
Qed.

Lemma wrong_length_path_ignored_witness :
  DCF.dcfFCFF (withRevSeries dcf_default (Some [34000; 36000; 38000]))
  = DCF.dcfFCFF (withRevSeries dcf_default None).
Proof. apply wrong_length_path_ignored; simpl; lia. Defined.

Lemma cagrSeries_unfold (i : DCF.DCFInputs) :
  DCF.cagrSeries i
  = [DCF.rev2025_bn i * (1 + DCF.cagr i) ^ 1;
     DCF.rev2025_bn i * (1 + DCF.cagr i) ^ 2;
     DCF.rev2025_bn i * (1 + DCF.cagr i) ^ 3;
     DCF.rev2025_bn i * (1 + DCF.cagr i) ^ 4;
     DCF.rev2025_bn i * (1 + DCF.cagr i) ^ 5].
Proof.
  unfold DCF.cagrSeries, mapi, DCF.years; cbn [mapi_from Nat.add].
  now rewrite !Math_pow_nat.
Qed.

(** X2: without an explicit path, a positive base revenue and a CAGR
    above -100%, the revenue of year [t] is [rev2025 * (1 + cagr)^t] and
    the growth rate of every year is the CAGR itself. *)
Theorem cagr_path_growth (i : DCF.DCFInputs) :
  DCF.revSeries_bn i = None ->
  0 < DCF.rev2025_bn i -> -1 < DCF.cagr i ->
  map DCF.rev (DCF.rows (DCF.dcfFCFF i))
  = map (fun t => DCF.rev2025_bn i * (1 + DCF.cagr i) ^ t) [1; 2; 3; 4; 5]%nat
  /\ Forall (fun r => DCF.g r = DCF.cagr i) (DCF.rows (DCF.dcfFCFF i)).
Proof.
  intros Hn Hr Hc.
  assert (Hs : DCF.revSeries i = DCF.cagrSeries i)
    by (unfold DCF.revSeries; now rewrite Hn).
  assert (Hq : 0 < 1 + DCF.cagr i) by lra.
  unfold DCF.dcfFCFF; cbn [DCF.rows]; rewrite dcfRows_unfold.
  unfold DCF.dcfRow, DCF.prevRevAt; rewrite Hs, cagrSeries_unfold.
  cbn [map nth DCF.rev DCF.g].
  set (q := 1 + DCF.cagr i) in *. set (v := DCF.rev2025_bn i) in *.
  split; [reflexivity |].
  assert (P : forall n, 0 < v * q ^ n)
    by (intros n; apply Rmult_lt_0_compat; [assumption | now apply pow_lt]).
  rewrite (gt0_true v Hr), !gt0_true by apply P.
  repeat constructor; simpl; unfold q; field; unfold v in *; fold q; 
    repeat split; try lra; apply Rgt_not_eq; try apply pow_lt; try lra.
Qed.

Lemma cagr_path_growth_witness :
  map DCF.rev (DCF.rows (DCF.dcfFCFF dcf_default))
  = map (fun t => 31606.954 * (1 + 0.08) ^ t) [1; 2; 3; 4; 5]%nat
  /\ Forall (fun r => DCF.g r = 0.08) (DCF.rows (DCF.dcfFCFF dcf_default)).
Proof. apply (cagr_path_growth dcf_default); simpl; try reflexivity; lra. Defined.

Lemma Forall_dcfRows (P : DCF.DCFRow -> Prop) (i : DCF.DCFInputs) :
  (forall y idx, P (DCF.dcfRow i y idx)) ->
  Forall P (DCF.rows (DCF.dcfFCFF i)).
Proof.
  intros H; unfold DCF.dcfFCFF, DCF.dcfRows, mapi; cbn [DCF.rows].
  now apply Forall_mapi_from.
Qed.

Lemma clamp_low (x lo hi : R) : lo <= hi -> x <= lo -> clamp x lo hi = lo.
Proof.
  intros H1 H2; unfold clamp, Math_min, Math_max.
  rewrite (Rmax_left lo x) by assumption.
  now apply Rmin_right.
Qed.

Lemma clamp_high (x lo hi : R) : lo <= hi -> hi <= x -> clamp x lo hi = hi.
Proof.
  intros H1 H2; unfold clamp, Math_min, Math_max.
  rewrite (Rmax_right lo x) by lra.
  now apply Rmin_left.
Qed.


Lemma disc_formula (i : DCF.DCFInputs) (y idx : nat) :
  DCF.disc (DCF.dcfRow i y idx) = / (1 + DCF.wacc i) ^ (idx + 1)
  /\ DCF.pv (DCF.dcfRow i y idx)
     = DCF.fcff (DCF.dcfRow i y idx) * DCF.disc (DCF.dcfRow i y idx).
Proof.
  unfold DCF.dcfRow; cbn [DCF.disc DCF.pv DCF.fcff].
  rewrite Math_pow_nat; split; [unfold Rdiv; ring | reflexivity].
Qed.

(** X4: with a non-negative discount rate every discount factor lies in
    (0, 1], so no present value exceeds its cash flow in magnitude; and
    the factor of year [t] is [1 / (1 + wacc)^t]. *)
Theorem discount_factors (i : DCF.DCFInputs) :
  0 <= DCF.wacc i ->
  map DCF.disc (DCF.rows (DCF.dcfFCFF i))
  = map (fun t => / (1 + DCF.wacc i) ^ t) [1; 2; 3; 4; 5]%nat
  /\ Forall (fun r => 0 < DCF.disc r <= 1
                      /\ Rabs (DCF.pv r) <= Rabs (DCF.fcff r))
            (DCF.rows (DCF.dcfFCFF i)).
Proof.
  intros Hw; split.
  - unfold DCF.dcfFCFF; cbn [DCF.rows]; rewrite dcfRows_unfold.
    cbn [map]. now rewrite !(proj1 (disc_formula i _ _)).
  - apply Forall_dcfRows; intros y idx.
    destruct (disc_formula i y idx) as [Hd Hp].
    assert (H1 : 1 <= (1 + DCF.wacc i) ^ (idx + 1)) by (apply pow_R1_Rle; lra).
    assert (Hd' : 0 < DCF.disc (DCF.dcfRow i y idx) <= 1).
    { rewrite Hd.
      set (X := (1 + DCF.wacc i) ^ (idx + 1)) in *.
      assert (Hi : 0 < / X) by (apply Rinv_0_lt_compat; lra).
      assert (Hx : X * / X = 1) by (apply Rinv_r; lra).
      split; [assumption | nra]. }
    split; [assumption |].
    rewrite Hp, Rabs_mult, (Rabs_right (DCF.disc _)) by lra.
    pose proof (Rabs_pos (DCF.fcff (DCF.dcfRow i y idx))).
    nra.
Qed.

Lemma discount_factors_witness :
  map DCF.disc (DCF.rows (DCF.dcfFCFF dcf_default))
  = map (fun t => / (1 + 0.09) ^ t) [1; 2; 3; 4; 5]%nat
  /\ Forall (fun r => 0 < DCF.disc r <= 1
                      /\ Rabs (DCF.pv r) <= Rabs (DCF.fcff r))
            (DCF.rows (DCF.dcfFCFF dcf_default)).
Proof. apply (discount_factors dcf_default); simpl; lra. Defined.

Lemma nth_nonneg (l : list R) (n : nat) :
  Forall (fun v => 0 <= v) l -> 0 <= nth n l 0.
Proof.
  intros H; revert n; induction H as [| v l Hv _ IH]; intros [| n]; simpl;
    try lra; auto.
Qed.

Lemma sumPV_from_nonneg (rs : list DCF.DCFRow) : forall acc,
  0 <= acc -> Forall (fun r => 0 <= DCF.pv r) rs ->
  0 <= fold_left (fun s r => s + DCF.pv r) rs acc.
Proof.
  induction rs as [| r rs IH]; intros acc Ha H; simpl; [assumption |].
  inversion H; subst; apply IH; [lra | assumption].
Qed.

Lemma cagrSeries_nonneg (i : DCF.DCFInputs) :
  DCF.revSeries_bn i = None -> 0 <= DCF.rev2025_bn i -> -1 <= DCF.cagr i ->
  Forall (fun v => 0 <= v) (DCF.revSeries i).
Proof.
  intros Hn Hr Hc; unfold DCF.revSeries; rewrite Hn, cagrSeries_unfold.
  repeat (apply Forall_cons;
          [apply Rmult_le_pos; [assumption | apply pow_le; lra] |]).
  apply Forall_nil.
Qed.

Section NonNegative.

Variable i : DCF.DCFInputs.
Hypothesis Hrev : Forall (fun v => 0 <= v) (DCF.revSeries i).
Hypothesis Hm : 0 <= DCF.ebitMargin i.
Hypothesis Ht : DCF.tax i <= 1.
Hypothesis Hw : -1 < DCF.wacc i.

Lemma row_nonneg (y idx : nat) :
  0 <= DCF.rev (DCF.dcfRow i y idx)
  /\ 0 <= DCF.nopat (DCF.dcfRow i y idx)
  /\ 0 <= DCF.fcff (DCF.dcfRow i y idx)
  /\ 0 <= DCF.pv (DCF.dcfRow i y idx).
Proof.
  destruct (disc_formula i y idx) as [Hd Hp]; rewrite Hp, Hd.
  unfold DCF.dcfRow; cbn [DCF.rev DCF.nopat DCF.fcff].
  pose proof (nth_nonneg _ idx Hrev) as Hn.
  set (rv := nth idx (DCF.revSeries i) 0) in *.
  set (gr := if gt0 _ then _ else _).
  pose proof (clamp_bounds (gr / DCF.rocSafe i) 0 0.95 ltac:(lra)) as [Hl Hh].
  assert (Hno : 0 <= rv * DCF.ebitMargin i * (1 - DCF.tax i))
    by (apply Rmult_le_pos; [apply Rmult_le_pos; assumption | lra]).
  assert (Hf : 0 <= rv * DCF.ebitMargin i * (1 - DCF.tax i)
                    * (1 - clamp (gr / DCF.rocSafe i) 0 0.95))
    by (apply Rmult_le_pos; [assumption | lra]).
  repeat split; try assumption.
  apply Rmult_le_pos; [assumption |].
  left; apply Rinv_0_lt_compat, pow_lt; lra.
Qed.

Lemma pvFCFF_nonneg : 0 <= DCF.pvFCFF (DCF.dcfFCFF i).
Proof.
  unfold DCF.dcfFCFF; cbn [DCF.pvFCFF]; unfold DCF.sumPV.
  apply sumPV_from_nonneg; [lra |].
  unfold DCF.dcfRows, mapi; apply Forall_mapi_from.
  intros y idx; apply row_nonneg.
Qed.

Lemma tv_nonneg : -1 <= DCF.gT i -> 0 <= DCF.tv (DCF.dcfFCFF i).
Proof.
  intros Hg; unfold DCF.dcfFCFF; cbn [DCF.tv].
  apply div_nonneg; [| pose proof (spread_floor i); lra].
  unfold DCF.fcff2031, DCF.nopat2031, DCF.ebit2031, DCF.rev2031, DCF.rev2030.
  assert (Hl : DCF.lastRev (DCF.dcfRows i) = DCF.rev (DCF.dcfRow i 2030 4))
    by reflexivity.
  rewrite Hl.
  pose proof (row_nonneg 2030 4) as (Hr & _).
  pose proof (clamp_bounds (DCF.gT i / DCF.rocSafe i) 0 0.95 ltac:(lra))
    as [H0 H1].
  unfold DCF.reinvTerm.
  repeat apply Rmult_le_pos; try assumption; lra.
Qed.

End NonNegative.

(** X5: a non-negative revenue path, a non-negative EBIT margin, a tax
    rate of at most 100%, a discount rate above -100% and a terminal
    growth of at least -100% give non-negative present values, terminal
    value and enterprise value; with non-negative net cash the equity
    value and the value per share are non-negative as well. *)
Theorem valuation_nonneg (i : DCF.DCFInputs) :
  Forall (fun v => 0 <= v) (DCF.revSeries i) ->
  0 <= DCF.ebitMargin i -> DCF.tax i <= 1 ->
  -1 < DCF.wacc i -> -1 <= DCF.gT i ->
  let r := DCF.dcfFCFF i in
  Forall (fun row => 0 <= DCF.fcff row /\ 0 <= DCF.pv row) (DCF.rows r)
  /\ 0 <= DCF.pvFCFF r /\ 0 <= DCF.tv r /\ 0 <= DCF.pvTV r /\ 0 <= DCF.ev_bn r
  /\ (0 <= DCF.netCash_bn i -> 0 <= DCF.eq_bn r /\ 0 <= DCF.vps r).
Proof.
  intros Hrev Hm Ht Hw Hg r.
  pose proof (pvFCFF_nonneg i Hrev Hm Ht Hw) as Hp.
  pose proof (tv_nonneg i Hrev Hm Ht Hw Hg) as Htv.
  assert (Hpt : 0 <= DCF.pvTV r).
  { unfold r, DCF.dcfFCFF; cbn [DCF.pvTV]. rewrite Math_pow_5.
    apply div_nonneg; [exact Htv | apply pow_lt; lra]. }
  assert (He : 0 <= DCF.ev_bn r)
    by (unfold r, DCF.dcfFCFF in *; cbn [DCF.ev_bn DCF.pvTV DCF.pvFCFF] in *; lra).
  split; [| split; [| split; [| split; [| split]]]]; try assumption.
  - apply Forall_dcfRows; intros y idx.
    pose proof (row_nonneg i Hrev Hm Ht Hw y idx) as (_ & _ & H1 & H2); auto.
  - intros Hc.
    assert (Hq : 0 <= DCF.eq_bn r)
      by (unfold r, DCF.dcfFCFF in *;
          cbn [DCF.ev_bn DCF.eq_bn DCF.pvTV DCF.pvFCFF] in *; lra).
    split; [assumption |].
    unfold r, DCF.dcfFCFF in *; cbn [DCF.vps DCF.eq_bn] in *.
    destruct (gt0 (DCF.shares i)) eqn:Hs; [| lra].
    apply gt0_spec in Hs.
    apply div_nonneg; [| assumption].
    apply Rmult_le_pos; [assumption | lra].
Qed.

Lemma valuation_nonneg_witness :
  let r := DCF.dcfFCFF dcf_default in
  Forall (fun row => 0 <= DCF.fcff row /\ 0 <= DCF.pv row) (DCF.rows r)
  /\ 0 <= DCF.pvFCFF r /\ 0 <= DCF.tv r /\ 0 <= DCF.pvTV r /\ 0 <= DCF.ev_bn r
  /\ (0 <= DCF.netCash_bn dcf_default -> 0 <= DCF.eq_bn r /\ 0 <= DCF.vps r).
Proof.
  apply (valuation_nonneg dcf_default); try (simpl; lra).
  apply cagrSeries_nonneg; simpl; try reflexivity; lra.
Defined.

(** ** The DCF as the dashboard calls it *)




Lemma storeDCF_rows_exact (p : StoreDCF.Params) :
  let r1 := StoreDCF.storeRow p 2026 0 (StoreDCF.rev2025_bn p) in
  let r2 := StoreDCF.storeRow p 2027 1 (StoreDCF.revenue_bn r1) in
  let r3 := StoreDCF.storeRow p 2028 2 (StoreDCF.revenue_bn r2) in
  let r4 := StoreDCF.storeRow p 2029 3 (StoreDCF.revenue_bn r3) in
  let r5 := StoreDCF.storeRow p 2030 4 (StoreDCF.revenue_bn r4) in
  StoreDCF.rows (StoreDCF.buildStoreDCFSeries p) = [r1; r2; r3; r4; r5].
Proof. reflexivity. Qed.

Lemma storeRow_yoy (p : StoreDCF.Params) (y idx : nat) (prev : R) :
  StoreDCF.yoy (StoreDCF.storeRow p y idx prev)
  = if gt0 prev
    then StoreDCF.revenue_bn (StoreDCF.storeRow p y idx prev) / prev - 1
    else 0.
Proof. reflexivity. Qed.

Lemma storeRow_revenue_prev (p : StoreDCF.Params) (y idx : nat) (a b : R) :
  StoreDCF.revenue_bn (StoreDCF.storeRow p y idx a)
  = StoreDCF.revenue_bn (StoreDCF.storeRow p y idx b).
Proof. reflexivity. Qed.




(** ** The scenario table *)

Lemma makeRow_name (s : Dashboard.State) (n : Dashboard.ScenarioName)
  (e p : R) (c : option StoreKPI.StoreKPIInputs) :
  Dashboard.name (Dashboard.makeRow s n e p c) = n.
Proof.
  unfold Dashboard.makeRow.
  destruct (Dashboard.useStoreKPI s); destruct c; reflexivity.
Qed.

(** X8: the active row is always the row of the active scenario: the
    lookup in the scenario table never falls back to its default. *)
Theorem active_row_is_active_scenario (s : Dashboard.State) :
  Dashboard.name (Dashboard.activeRow s) = Dashboard.activeScenario s
  /\ find (fun r => Dashboard.ScenarioName_eqb (Dashboard.name r)
                      (Dashboard.activeScenario s))
       (Dashboard.scenarioTable s) = Some (Dashboard.activeRow s).
Proof.
  unfold Dashboard.activeRow, Dashboard.scenarioTable.
  unfold Dashboard.rowBear, Dashboard.rowBase, Dashboard.rowBull.
  cbn [find]; rewrite !makeRow_name.
  destruct (Dashboard.activeScenario s); cbn [Dashboard.ScenarioName_eqb];
    rewrite makeRow_name; split; reflexivity.
Qed.

Section ScenarioOrder.

Variables (planRevenue_bn planNPAT_bn shares : R).
Variables (base sc sc' : StoreKPI.StoreKPIInputs).
Hypothesis Hstart : StoreKPI.startStores sc = StoreKPI.startStores sc'.
Hypothesis Hramp : StoreKPI.ramp sc = StoreKPI.ramp sc'.
Hypothesis Hlev : StoreKPI.opLeverage sc = StoreKPI.opLeverage sc'.
Hypothesis Hnn : StoreKPI.netNewStores sc <= StoreKPI.netNewStores sc'.
Hypothesis Hd : StoreKPI.sssgDelta sc <= StoreKPI.sssgDelta sc'.

Let out := StoreKPI.storeDrivenScenario planRevenue_bn planNPAT_bn shares
             base sc.
Let out' := StoreKPI.storeDrivenScenario planRevenue_bn planNPAT_bn shares
              base sc'.

Lemma order_revRatio : StoreKPI.revRatio out <= StoreKPI.revRatio out'.
Proof.
  unfold out, out', StoreKPI.storeDrivenScenario; cbn [StoreKPI.revRatio].
  destruct (gt0 planRevenue_bn) eqn:Hp; [| lra].
  apply gt0_spec in Hp.
  pose proof (baseEff_pos base) as Hb.
  set (b := Math_max 1e-6 _) in *.
  rewrite <- Hstart, <- Hramp.
  set (e := Math_max 0 (StoreKPI.effectiveAvgStores _ (StoreKPI.netNewStores sc) _)).
  set (e' := Math_max 0 (StoreKPI.effectiveAvgStores _ (StoreKPI.netNewStores sc') _)).
  assert (He : 0 <= e) by apply Math_max_ge_l.
  assert (Hee : e <= e').
  { unfold e, e', Math_max; apply Rle_max_compat_l.
    now apply effectiveAvgStores_mono. }
  pose proof (div_nonneg e b He Hb) as Hq.
  pose proof (div_le_compat e e' b Hee Hb) as Hqq.
  set (q := e / b) in *. set (q' := e' / b) in *.
  replace (planRevenue_bn * q * (1 + StoreKPI.sssgDelta sc) / planRevenue_bn)
    with (q * (1 + StoreKPI.sssgDelta sc)) by (field; lra).
  replace (planRevenue_bn * q' * (1 + StoreKPI.sssgDelta sc') / planRevenue_bn)
    with (q' * (1 + StoreKPI.sssgDelta sc')) by (field; lra).
  unfold Math_max.
  destruct (Rle_dec (1 + StoreKPI.sssgDelta sc') 0) as [Hneg | Hpos].
  - rewrite !Rmax_left by nra. lra.
  - apply Rle_max_compat_l. nra.
Qed.

Lemma order_npat :
  0 <= planNPAT_bn -> StoreKPI.npat_bn out <= StoreKPI.npat_bn out'.
Proof.
  intros Hp; unfold out, out'; rewrite !npat_eq, <- Hlev.
  apply Rmult_le_compat_l; [assumption |].
  apply Math_pow_mono.
  - apply revRatio_nonneg.
  - apply order_revRatio.
  - pose proof (opLev_bounds sc); lra.
Qed.

Lemma order_eps :
  0 <= planNPAT_bn -> StoreKPI.epsVND out <= StoreKPI.epsVND out'.
Proof.
  intros Hp; pose proof (order_npat Hp) as Hn.
  unfold out, out' in *; rewrite !epsVND_eq.
  destruct (gt0 shares) eqn:Hs; [| lra].
  apply gt0_spec in Hs. apply div_le_compat; [| assumption].
  apply Rmult_le_compat_r; [lra | assumption].
Qed.

End ScenarioOrder.

Lemma scenario_eps_nonneg (planRevenue_bn planNPAT_bn shares : R)
  (base sc : StoreKPI.StoreKPIInputs) :
  0 <= planNPAT_bn ->
  0 <= StoreKPI.epsVND
         (StoreKPI.storeDrivenScenario planRevenue_bn planNPAT_bn shares base sc).
Proof.
  intros Hn; rewrite epsVND_eq.
  destruct (gt0 shares) eqn:Hs; [| lra].
  apply gt0_spec in Hs; apply div_nonneg; [| assumption].
  apply Rmult_le_pos; [| lra].
  rewrite npat_eq; apply Rmult_le_pos; [assumption |].
  apply Math_pow_nonneg; [apply revRatio_nonneg |].
  pose proof (opLev_bounds sc); lra.
Qed.

(** X9: with the store driver on and a non-negative planned NPAT, Bear,
    Base and Bull are ordered: if the net openings and the SSSG deltas
    increase from Bear to Base to Bull, so do NPAT and EPS; and with
    non-negative target multiples that increase as well, so do the
    target prices. *)
Theorem scenarios_ordered (s : Dashboard.State) :
  Dashboard.useStoreKPI s = true ->
  0 <= Dashboard.planNPAT s ->
  Dashboard.bearNetNewStores s <= Dashboard.baseNetNewStores s
    <= Dashboard.bullNetNewStores s ->
  Dashboard.sssgBear s <= Dashboard.sssgBase s <= Dashboard.sssgBull s ->
  let bear := Dashboard.rowBear s in
  let base := Dashboard.rowBase s in
  let bull := Dashboard.rowBull s in
  Dashboard.npat bear <= Dashboard.npat base <= Dashboard.npat bull
  /\ Dashboard.eps bear <= Dashboard.eps base <= Dashboard.eps bull
  /\ (0 <= Dashboard.pe bear <= Dashboard.pe base ->
      Dashboard.pe base <= Dashboard.pe bull ->
      Dashboard.tp bear <= Dashboard.tp base <= Dashboard.tp bull).
Proof.
  intros Hu Hp [Hn1 Hn2] [Hd1 Hd2] bear base bull.
  unfold bear, base, bull, Dashboard.rowBear, Dashboard.rowBase,
    Dashboard.rowBull, Dashboard.makeRow; rewrite Hu.
  cbn [Dashboard.npat Dashboard.eps Dashboard.tp Dashboard.pe].
  set (P := Dashboard.baseStorePlan s).
  assert (N1 := order_npat (Dashboard.planRevenue s) (Dashboard.planNPAT s)
                  (Dashboard.shares s) P (Dashboard.storeParams_bear s)
                  (Dashboard.storeParams_base s) eq_refl eq_refl eq_refl Hn1 Hd1 Hp).
  assert (N2 := order_npat (Dashboard.planRevenue s) (Dashboard.planNPAT s)
                  (Dashboard.shares s) P (Dashboard.storeParams_base s)
                  (Dashboard.storeParams_bull s) eq_refl eq_refl eq_refl Hn2 Hd2 Hp).
  assert (E1 := order_eps (Dashboard.planRevenue s) (Dashboard.planNPAT s)
                  (Dashboard.shares s) P (Dashboard.storeParams_bear s)
                  (Dashboard.storeParams_base s) eq_refl eq_refl eq_refl Hn1 Hd1 Hp).
  assert (E2 := order_eps (Dashboard.planRevenue s) (Dashboard.planNPAT s)
                  (Dashboard.shares s) P (Dashboard.storeParams_base s)
                  (Dashboard.storeParams_bull s) eq_refl eq_refl eq_refl Hn2 Hd2 Hp).
  assert (Z1 := scenario_eps_nonneg (Dashboard.planRevenue s)
                  (Dashboard.planNPAT s) (Dashboard.shares s) P
                  (Dashboard.storeParams_bear s) Hp).
  split; [split; assumption | split; [split; assumption |]].
  intros [Hq0 Hq1] Hq2; unfold priceFromPE.
  set (eb := StoreKPI.epsVND _) in *.
  set (em := StoreKPI.epsVND _) in *.
  set (eu := StoreKPI.epsVND _) in *.
  split; nra.
Qed.

Lemma scenarios_ordered_witness :
  let bear := Dashboard.rowBear Dashboard.defaults in
  let base := Dashboard.rowBase Dashboard.defaults in
  let bull := Dashboard.rowBull Dashboard.defaults in
  Dashboard.npat bear <= Dashboard.npat base <= Dashboard.npat bull
  /\ Dashboard.eps bear <= Dashboard.eps base <= Dashboard.eps bull
  /\ (0 <= Dashboard.pe bear <= Dashboard.pe base ->
      Dashboard.pe base <= Dashboard.pe bull ->
      Dashboard.tp bear <= Dashboard.tp base <= Dashboard.tp bull).
Proof.
  apply (scenarios_ordered Dashboard.defaults);
    try reflexivity; simpl; lra.
Defined.

Lemma plan_scenario_fields (planRevenue_bn planNPAT_bn shares : R)
  (base : StoreKPI.StoreKPIInputs) :
  StoreKPI.sssgDelta base = 0 ->
  1e-6 <= StoreKPI.effectiveAvgStores (StoreKPI.startStores base)
            (StoreKPI.netNewStores base) (StoreKPI.ramp base) ->
  0 < planRevenue_bn ->
  let out := StoreKPI.storeDrivenScenario planRevenue_bn planNPAT_bn shares
               base base in
  StoreKPI.revenue_bn out = planRevenue_bn
  /\ StoreKPI.npat_bn out = planNPAT_bn
  /\ StoreKPI.epsVND out = planEPSVND planNPAT_bn shares
  /\ StoreKPI.epsVsPlan out = 0.
Proof.
  intros Hd He Hp out.
  assert (Hr : StoreKPI.revenue_bn out = planRevenue_bn).
  { unfold out, StoreKPI.storeDrivenScenario; cbn [StoreKPI.revenue_bn].
    rewrite Hd.
    set (e := StoreKPI.effectiveAvgStores _ _ _) in *.
    assert (Hb : Math_max 1e-6 e = e) by (apply Rmax_right; lra).
    assert (Hc : Math_max 0 e = e) by (apply Rmax_right; lra).
    rewrite Hb, Hc; field; lra. }
  assert (Hq : StoreKPI.revRatio out = 1).
  { pose proof (revRatio_eq planRevenue_bn planNPAT_bn shares base base 0)
      as [E _].
    fold out in E; rewrite E, Hr, (gt0_true _ Hp).
    replace (planRevenue_bn / planRevenue_bn) with 1 by (field; lra).
    apply Rmax_right; lra. }
  assert (Hn : StoreKPI.npat_bn out = planNPAT_bn).
  { unfold out; rewrite npat_eq; fold out. rewrite Hq, Math_pow_1_l; lra. }
  repeat split; try assumption.
  - unfold out; rewrite epsVND_eq; fold out; now rewrite Hn.
  - change (StoreKPI.epsVsPlan out)
      with (if gt0 planNPAT_bn
            then StoreKPI.npat_bn out / planNPAT_bn - 1 else 0).
    rewrite Hn; destruct (gt0 planNPAT_bn) eqn:G; [| reflexivity].
    apply gt0_spec in G; field; lra.
Qed.

(** X10: the Base row shows the plan under either driver.  With the store
    driver it does so when the Base SSSG delta is 0, the plan has at
    least [1e-6] effective stores and the planned revenue is positive;
    with the EPS driver when the Base EPS change is 0.  NPAT, EPS, target
    price and the required fourth-quarter NPAT are then those of the
    plan. *)
Theorem base_row_shows_plan (s : Dashboard.State) :
  (Dashboard.useStoreKPI s = true
   /\ Dashboard.sssgBase s = 0
   /\ 1e-6 <= StoreKPI.effectiveAvgStores (Dashboard.startStores s)
                (Dashboard.baseNetNewStores s) (Dashboard.newStoreRamp s)
   /\ 0 < Dashboard.planRevenue s)
  \/ (Dashboard.useStoreKPI s = false
      /\ Dashboard.def_epsVsPlan (Dashboard.scBase s) = 0) ->
  let r := Dashboard.rowBase s in
  Dashboard.npat r = Dashboard.planNPAT s
  /\ Dashboard.eps r = Dashboard.planEPS s
  /\ Dashboard.epsVsPlan r = 0
  /\ Dashboard.tp r = Dashboard.planEPS s * Dashboard.def_pe (Dashboard.scBase s)
  /\ Dashboard.q4Req r = Dashboard.planNPAT s - Dashboard.npat9m s.
Proof.
  intros [(Hu & Hd & He & Hp) | (Hu & He)] r;
    unfold r, Dashboard.rowBase, Dashboard.makeRow; rewrite Hu.
  - cbn [Dashboard.npat Dashboard.eps Dashboard.epsVsPlan Dashboard.tp
         Dashboard.q4Req].
    destruct (plan_scenario_fields (Dashboard.planRevenue s)
                (Dashboard.planNPAT s) (Dashboard.shares s)
                (Dashboard.baseStorePlan s) Hd He Hp) as (_ & Hn & Hs & Hv).
    change (Dashboard.storeParams_base s) with (Dashboard.baseStorePlan s).
    unfold priceFromPE, Dashboard.planEPS.
    rewrite Hn, Hs, Hv. repeat split; reflexivity.
  - cbn [Dashboard.npat Dashboard.eps Dashboard.epsVsPlan Dashboard.tp
         Dashboard.q4Req].
    unfold priceFromPE, Dashboard.planEPS, planEPSVND. rewrite He.
    replace (Dashboard.planNPAT s * (1 + 0)) with (Dashboard.planNPAT s) by ring.
    repeat split; reflexivity.
Qed.

Lemma base_row_shows_plan_witness :
  let r := Dashboard.rowBase Dashboard.defaults in
  Dashboard.npat r = 1959.65
  /\ Dashboard.eps r = Dashboard.planEPS Dashboard.defaults
  /\ Dashboard.epsVsPlan r = 0
  /\ Dashboard.tp r = Dashboard.planEPS Dashboard.defaults * 17
  /\ Dashboard.q4Req r = 1959.65 - 1610.0.
Proof.
  apply (base_row_shows_plan Dashboard.defaults).
  left; repeat split; try reflexivity; try (simpl; lra).
  change (1e-6 <= StoreKPI.effectiveAvgStores 429 20 0.7).
  rewrite effectiveAvgStores_default; lra.
Defined.

(** ** The store KPI scenario: bounds and pass-through *)

(** X11: when stores only open ([startStores >= 0], [netNewStores >= 0])
    the effective average store count lies between the starting count
    and the starting count plus half the openings, hence below the
    end-of-period count; a ramp of 0 or less gives the starting count
    and a ramp of 1 or more the full half of the openings. *)
Theorem effective_stores_between (planRevenue_bn planNPAT_bn shares : R)
  (base sc : StoreKPI.StoreKPIInputs) :
  0 <= StoreKPI.startStores sc -> 0 <= StoreKPI.netNewStores sc ->
  let out := StoreKPI.storeDrivenScenario planRevenue_bn planNPAT_bn shares
               base sc in
  StoreKPI.startStores sc <= StoreKPI.avgStoresEff out
    <= StoreKPI.startStores sc + StoreKPI.netNewStores sc / 2
  /\ StoreKPI.avgStoresEff out <= StoreKPI.endStores out
  /\ StoreKPI.endStores out = StoreKPI.startStores sc + StoreKPI.netNewStores sc
  /\ (StoreKPI.ramp sc <= 0 ->
      StoreKPI.avgStoresEff out = StoreKPI.startStores sc)
  /\ (1 <= StoreKPI.ramp sc ->
      StoreKPI.avgStoresEff out
      = StoreKPI.startStores sc + StoreKPI.netNewStores sc / 2).
Proof.
  intros Hs Hn out.
  unfold out, StoreKPI.storeDrivenScenario, StoreKPI.effectiveAvgStores.
  cbn [StoreKPI.avgStoresEff StoreKPI.endStores].
  pose proof (clamp_bounds (StoreKPI.ramp sc) 0 1 ltac:(lra)) as [Hc0 Hc1].
  set (s0 := StoreKPI.startStores sc) in *.
  set (n := StoreKPI.netNewStores sc) in *.
  set (c := clamp (StoreKPI.ramp sc) 0 1) in *.
  assert (E0 : Math_max 0 s0 = s0) by (apply Rmax_right; lra).
  assert (E1 : Math_max 0 (s0 + n / 2 * c) = s0 + n / 2 * c)
    by (apply Rmax_right; nra).
  assert (E2 : Math_max 0 (s0 + n) = s0 + n) by (apply Rmax_right; lra).
  rewrite E0, E1, E2.
  split; [split; nra | split; [nra | split; [reflexivity | split]]].
  - intros Hr; unfold c; rewrite clamp_low; lra.
  - intros Hr; unfold c; rewrite clamp_high; lra.
Qed.

Lemma effective_stores_between_witness :
  let out := StoreKPI.storeDrivenScenario 31606.954 1959.65 341149107
               kpi_default kpi_default in
  StoreKPI.startStores kpi_default <= StoreKPI.avgStoresEff out
    <= StoreKPI.startStores kpi_default + StoreKPI.netNewStores kpi_default / 2
  /\ StoreKPI.avgStoresEff out <= StoreKPI.endStores out
  /\ StoreKPI.endStores out
     = StoreKPI.startStores kpi_default + StoreKPI.netNewStores kpi_default
  /\ (StoreKPI.ramp kpi_default <= 0 ->
      StoreKPI.avgStoresEff out = StoreKPI.startStores kpi_default)
  /\ (1 <= StoreKPI.ramp kpi_default ->
      StoreKPI.avgStoresEff out
      = StoreKPI.startStores kpi_default + StoreKPI.netNewStores kpi_default / 2).
Proof. apply effective_stores_between; simpl; lra. Defined.

(** X12: whatever the inputs, the scenario reports a non-negative
    end-of-period store count, effective store count and revenue ratio,
    and an EPS change against plan of at least -100%. *)
Theorem scenario_outputs_floored (planRevenue_bn planNPAT_bn shares : R)
  (base sc : StoreKPI.StoreKPIInputs) :
  let out := StoreKPI.storeDrivenScenario planRevenue_bn planNPAT_bn shares
               base sc in
  0 <= StoreKPI.endStores out /\ 0 <= StoreKPI.avgStoresEff out
  /\ 0 <= StoreKPI.revRatio out /\ -1 <= StoreKPI.epsVsPlan out.
Proof.
  intros out.
  assert (Hq : 0 <= StoreKPI.revRatio out) by apply revRatio_nonneg.
  repeat split; try assumption.
  - apply Math_max_ge_l.
  - apply Math_max_ge_l.
  - change (StoreKPI.epsVsPlan out)
      with (if gt0 planNPAT_bn
            then StoreKPI.npat_bn out / planNPAT_bn - 1 else 0).
    destruct (gt0 planNPAT_bn) eqn:G; [| lra].
    apply gt0_spec in G.
    unfold out; rewrite npat_eq; fold out.
    assert (Hp : 0 <= Math_pow (StoreKPI.revRatio out)
                        (clamp (StoreKPI.opLeverage sc) 0.5 2.0)).
    { apply Math_pow_nonneg; [assumption |].
      pose proof (opLev_bounds sc); lra. }
    set (m := Math_pow _ _) in *.
    replace (planNPAT_bn * m / planNPAT_bn) with m by (field; lra).
    lra.
Qed.




(** ** The store-driven revenue path: continuity and the flat case *)

(** X14: the path has exactly five rows, for 2026 to 2030; each year
    starts from the store count the previous year ended with, the total
    revenue of a row is its retail plus its other revenue, and its
    year-on-year growth is measured against the previous row's total
    (against the base revenue in the first year), being 0 when that is
    not positive. *)
Theorem store_path_continuity (p : StoreDCF.Params) :
  let rs := StoreDCF.rows (StoreDCF.buildStoreDCFSeries p) in
  map StoreDCF.year rs = [2026; 2027; 2028; 2029; 2030]%nat
  /\ (forall k a b, nth_error rs k = Some a -> nth_error rs (S k) = Some b ->
        StoreDCF.storesStart b = StoreDCF.storesEnd a
        /\ StoreDCF.yoy b
           = if gt0 (StoreDCF.revenue_bn a)
             then StoreDCF.revenue_bn b / StoreDCF.revenue_bn a - 1 else 0)
  /\ (forall a, nth_error rs 0 = Some a ->
        StoreDCF.yoy a
        = if gt0 (StoreDCF.rev2025_bn p)
          then StoreDCF.revenue_bn a / StoreDCF.rev2025_bn p - 1 else 0)
  /\ Forall (fun r => StoreDCF.revenue_bn r
                      = StoreDCF.retailRev_bn r + StoreDCF.otherRev_bn r) rs.
Proof.
  intros rs; unfold rs.
  pose proof (storeDCF_rows_exact p) as E; cbv zeta in E; rewrite E; clear E.
  split; [reflexivity | split; [| split]].
  - intros k a b Ha Hb.
    destruct k as [| [| [| [| [| k]]]]]; cbn [nth_error] in Ha, Hb;
      try discriminate;
      injection Ha as <-; injection Hb as <-;
      (split; [unfold StoreDCF.storeRow;
               cbn [StoreDCF.storesStart StoreDCF.storesEnd]; simpl INR; ring
              | apply storeRow_yoy]).
  - intros a Ha; cbn [nth_error] in Ha; injection Ha as <-.
    apply storeRow_yoy.
  - repeat (apply Forall_cons; [reflexivity |]). apply Forall_nil.
Qed.

Section FlatPath.

Variable p : StoreDCF.Params.
Hypothesis Hnn : StoreDCF.netNewPerYear p = 0.
Hypothesis Hsssg : StoreDCF.sssgAbs p = 0.
Hypothesis Hother : StoreDCF.otherCagr p = 0.
Hypothesis Hstore : 1 <= StoreDCF.storeStart p.



End FlatPath.



(** ** Blending *)






(** X18: with a single method enabled at a positive weight the blended
    value is that method's value, whatever the weights and values of the
    disabled methods. *)
Theorem single_method_blend (wPE wDCF wPB tp vps pbValue price : R) :
  (0 < wPE ->
   Blend.v (Blend.blendedValue true false false
              (Blend.normalizedWeights true false false wPE wDCF wPB)
              tp vps pbValue price) = tp)
  /\ (0 < wDCF ->
      Blend.v (Blend.blendedValue false true false
                 (Blend.normalizedWeights false true false wPE wDCF wPB)
                 tp vps pbValue price) = vps)
  /\ (0 < wPB ->
      Blend.v (Blend.blendedValue false false true
                 (Blend.normalizedWeights false false true wPE wDCF wPB)
                 tp vps pbValue price) = pbValue).
Proof.
  repeat split; intros H; unfold Blend.blendedValue, Blend.normalizedWeights;
    match goal with
    | |- context [Rle_dec ?a 0] => destruct (Rle_dec a 0); [lra |]
    end;
    cbn [Blend.v Blend.wPE Blend.wDCF Blend.wPB]; field; lra.
Qed.

Lemma single_method_blend_witness :
  Blend.v (Blend.blendedValue false true false
             (Blend.normalizedWeights false true false 60 30 10)
             97000 80000 92000 95900) = 80000.
Proof.
  destruct (single_method_blend 60 30 10 97000 80000 92000 95900)
    as (_ & H & _).
  apply H; lra.
Defined.

(** ** Rounding, multiples and the store tracker *)

Lemma Math_round_bounds (x : R) :
  x - 0.5 < Dashboard.Math_round x <= x + 0.5.
Proof.
  unfold Dashboard.Math_round, Math_floor.
  pose proof (Zfloor_bound (x + 0.5)); lra.
Qed.

Lemma Math_round_IZR (z : Z) : Dashboard.Math_round (IZR z) = IZR z.
Proof.
  unfold Dashboard.Math_round, Math_floor; f_equal.
  apply Zfloor_eq; lra.
Qed.

Lemma Math_round_mono (x x' : R) :
  x <= x' -> Dashboard.Math_round x <= Dashboard.Math_round x'.
Proof.
  intros H; unfold Dashboard.Math_round, Math_floor.
  apply IZR_le, Zfloor_le; lra.
Qed.

(** X19: [roundTo x d], for a whole number of digits [d], is a multiple
    of [10^-d] within half a unit of that size of [x], and rounding a
    second time changes nothing. *)
Theorem roundTo_nearest (x : R) (d : nat) :
  Rabs (Dashboard.roundTo x (INR d) - x) <= / (2 * 10 ^ d)
  /\ (exists z : Z, Dashboard.roundTo x (INR d) = IZR z / 10 ^ d)
  /\ Dashboard.roundTo (Dashboard.roundTo x (INR d)) (INR d)
     = Dashboard.roundTo x (INR d).
Proof.
  unfold Dashboard.roundTo; rewrite Math_pow_nat.
  assert (Hp : 0 < 10 ^ d) by (apply pow_lt; lra).
  set (p := 10 ^ d) in *.
  assert (Hz : exists z : Z, Dashboard.Math_round (x * p) = IZR z)
    by (eexists; reflexivity).
  destruct Hz as [z Hz].
  pose proof (Math_round_bounds (x * p)) as [B1 B2].
  assert (Hi : 0 < / p) by now apply Rinv_0_lt_compat.
  assert (Hpi : p * / p = 1) by (apply Rinv_r; lra).
  split; [| split].
  - replace (Dashboard.Math_round (x * p) / p - x)
      with ((Dashboard.Math_round (x * p) - x * p) * / p) by (field; lra).
    rewrite Rabs_mult, (Rabs_right (/ p)) by lra.
    assert (Hh : / (2 * p) = / 2 * / p) by (field; lra).
    rewrite Hh.
    apply Rmult_le_compat_r; [lra |].
    apply Rabs_le; lra.
  - exists z; now rewrite Hz.
  - rewrite Hz.
    replace (IZR z / p * p) with (IZR z) by (field; lra).
    now rewrite Math_round_IZR.
Qed.



Lemma lastFinite_all_empty (l : list (option R)) :
  Forall (fun v => v = None) l -> Dashboard.lastFinite l = None.
Proof.
  induction 1 as [| v l Hv _ IH]; simpl; [reflexivity |].
  now rewrite IH.
Qed.

Lemma lastFinite_app (l1 l2 : list (option R)) (v : R) :
  Forall (fun w => w = None) l2 ->
  Dashboard.lastFinite (l1 ++ Some v :: l2) = Some v.
Proof.
  intros H; induction l1 as [| a l1 IH]; simpl.
  - now rewrite lastFinite_all_empty.
  - now rewrite IH.
Qed.

(** X21: the latest actual store count is the last quarter that has been
    filled in, whatever the earlier quarters hold; with no quarter
    filled in it is the baseline store count. *)
Theorem latest_actual_stores (s : Dashboard.State) :
  (Forall (fun v => v = None) (Dashboard.actualStoresByQuarter s) ->
   Dashboard.latestActualStores s = Dashboard.startStores s)
  /\ (forall l1 l2 v,
        Dashboard.actualStoresByQuarter s = l1 ++ Some v :: l2 ->
        Forall (fun w => w = None) l2 ->
        Dashboard.latestActualStores s = v).
Proof.
  unfold Dashboard.latestActualStores; split.
  - intros H; now rewrite lastFinite_all_empty.
  - intros l1 l2 v -> H; now rewrite lastFinite_app.
Qed.

Lemma latest_actual_stores_witness :
  Dashboard.latestActualStores Dashboard.defaults = 429.
Proof.
  destruct (latest_actual_stores Dashboard.defaults) as (H & _).
  apply H; repeat constructor.
Defined.

(** X22: the quarterly store plan has one entry per quarter, Q1 to Q4;
    with non-negative planned openings the planned counts never
    decrease from one quarter to the next; and for a whole non-negative
    baseline and whole openings the Q4 count is the baseline plus the
    openings. *)
Theorem quarterly_plan (s : Dashboard.State) :
  map fst (Dashboard.basePlanStoresByQuarter s) = Dashboard.QUARTERS_12M
  /\ exists q1 q2 q3 q4,
       map snd (Dashboard.basePlanStoresByQuarter s) = [q1; q2; q3; q4]
       /\ (0 <= Dashboard.baseNetNewStores s -> q1 <= q2 <= q3 /\ q3 <= q4)
       /\ (forall a n : Z,
             Dashboard.startStores s = IZR a -> (0 <= a)%Z ->
             Dashboard.baseNetNewStores s = IZR n ->
             q4 = Dashboard.startStores s + Dashboard.baseNetNewStores s).
Proof.
  split; [reflexivity |].
  unfold Dashboard.basePlanStoresByQuarter, mapi, Dashboard.QUARTERS_12M.
  cbn [mapi_from map snd].
  do 4 eexists; split; [reflexivity | split].
  - intros Hn; simpl INR.
    repeat split; apply Math_round_mono; nra.
  - intros a n Ha Hpos Hn; rewrite Ha, Hn; simpl INR.
    assert (E : Math_max 0 (IZR a) = IZR a)
      by (apply Rmax_right, IZR_le, Hpos).
    rewrite E.
    replace (IZR a + IZR n * ((1 + 1 + 1 + 1) / 4)) with (IZR (a + n))
      by (rewrite plus_IZR; field).
    now rewrite Math_round_IZR, plus_IZR.
Qed.

(** * The news script *)

Lemma Js_eqb_eq (a b : Js.jsstring) : Js.eqb a b = true <-> a = b.
Proof.
  revert b; induction a as [| x a IH]; intros [| y b]; simpl;
    try (split; [discriminate | discriminate]); try (split; reflexivity).
  rewrite andb_true_iff, N.eqb_eq, IH.
  split; [intros [-> ->]; reflexivity | intros H; injection H; auto].
Qed.

Lemma Js_eqb_refl (a : Js.jsstring) : Js.eqb a a = true.
Proof. now apply Js_eqb_eq. Qed.

Lemma Js_has_In (set : list Js.jsstring) (s : Js.jsstring) :
  Js.has set s = true <-> In s set.
Proof.
  unfold Js.has; rewrite existsb_exists; split.
  - intros (x & Hx & E); apply Js_eqb_eq in E; now subst.
  - intros H; exists s; split; [assumption | apply Js_eqb_refl].
Qed.

(** X23: a summary is cut to at most 240 code units: a text of up to 240
    is unchanged, a longer one becomes its first 237 code units followed
    by three dots (240 in all), and cutting twice is cutting once. *)
Theorem limitSummary_bound (text : Js.jsstring) :
  (length (News.limitSummary text) <= 240)%nat
  /\ ((length text <= 240)%nat -> News.limitSummary text = text)
  /\ ((240 < length text)%nat ->
      News.limitSummary text = firstn 237 text ++ News.dots
      /\ length (News.limitSummary text) = 240%nat)
  /\ News.limitSummary (News.limitSummary text) = News.limitSummary text.
Proof.
  unfold News.limitSummary; fold News.dots.
  destruct (Nat.ltb 240 (length text)) eqn:E.
  - apply Nat.ltb_lt in E.
    assert (L : length (firstn 237 text ++ News.dots) = 240%nat).
    { rewrite length_app, firstn_length_le by lia. reflexivity. }
    rewrite L. change (Nat.ltb 240 240) with false.
    repeat split; try lia; auto.
  - apply Nat.ltb_ge in E. rewrite (proj2 (Nat.ltb_ge _ _) E).
    repeat split; try lia; auto.
Qed.

Lemma insertByTs_In (x y : News.Item) (l : list News.Item) :
  In y (News.insertByTs x l) <-> y = x \/ In y l.
Proof.
  induction l as [| z l IH]; simpl.
  - intuition.
  - destruct (News.ts z <=? News.ts x)%Z; simpl; [intuition |].
    rewrite IH; intuition.
Qed.

Lemma sortByTs_In (y : News.Item) (l : list News.Item) :
  In y (News.sortByTs l) <-> In y l.
Proof.
  induction l as [| x l IH]; simpl; [reflexivity |].
  rewrite insertByTs_In, IH; intuition.
Qed.

Lemma insertByTs_sorted (x : News.Item) (l : list News.Item) :
  StronglySorted laterFirst l -> StronglySorted laterFirst (News.insertByTs x l).
Proof.
  induction 1 as [| z l Hs IH Hz]; simpl.
  - repeat constructor.
  - destruct (News.ts z <=? News.ts x)%Z eqn:E.
    + apply Z.leb_le in E. constructor; [constructor; assumption |].
      constructor; [exact E |].
      eapply Forall_impl; [| exact Hz].
      intros a Ha; unfold laterFirst in *; lia.
    + apply Z.leb_gt in E. constructor; [assumption |].
      apply Forall_forall; intros a Ha.
      apply insertByTs_In in Ha as [-> | Ha].
      * unfold laterFirst; lia.
      * rewrite Forall_forall in Hz; now apply Hz.
Qed.

Lemma sortByTs_sorted (l : list News.Item) :
  StronglySorted laterFirst (News.sortByTs l).
Proof.
  induction l as [| x l IH]; simpl; [constructor |].
  now apply insertByTs_sorted.
Qed.

Lemma pushItem_spec (st : list News.Item * list Js.jsstring) (x : News.Item) :
  selection_ok st ->
  selection_ok (News.pushItem st x)
  /\ (fst (News.pushItem st x) = fst st
      \/ fst (News.pushItem st x) = fst st ++ [x]).
Proof.
  destruct st as [rs seen]; intros [Hk Hn]; unfold News.pushItem.
  destruct (Js.has seen (News.key x)) eqn:E.
  - split; [split; assumption | left; reflexivity].
  - split; [| right; reflexivity].
    assert (Hx : ~ In (News.key x) seen).
    { intros H; apply Js_has_In in H; congruence. }
    unfold selection_ok; cbn [fst snd] in *; split.
    + intros k; rewrite map_app, in_app_iff; simpl.
      rewrite <- Hk; intuition.
    + rewrite map_app; simpl.
      apply NoDup_app; [assumption | repeat constructor; simpl; tauto |].
      intros k Hin [<- | []]. apply Hx, Hk, Hin.
Qed.

Lemma pushUpTo_spec (limit : nat) (items : list News.Item) :
  forall st, selection_ok st ->
  selection_ok (News.pushUpTo limit items st)
  /\ exists extra,
       fst (News.pushUpTo limit items st) = fst st ++ extra
       /\ (forall x, In x extra -> In x items)
       /\ (length (fst (News.pushUpTo limit items st))
           <= Nat.max limit (length (fst st)))%nat
       /\ (StronglySorted laterFirst items -> StronglySorted laterFirst extra).
Proof.
  induction items as [| x items IH]; intros st Hok; simpl.
  - split; [assumption |]. exists []; rewrite app_nil_r.
    repeat split; [intros ? [] | lia | constructor].
  - destruct (Nat.leb limit (length (fst st))) eqn:E.
    + split; [assumption |]. exists []; rewrite app_nil_r.
      repeat split; [intros ? [] | lia | constructor].
    + apply Nat.leb_gt in E.
      destruct (pushItem_spec st x Hok) as [Hok' Hfst].
      destruct (IH _ Hok') as (Hok'' & extra & He & Hin & Hlen & Hsort).
      split; [assumption |].
      destruct Hfst as [Hf | Hf]; rewrite Hf in *.
      * exists extra; repeat split; auto.
        intros Hs; apply Hsort; now inversion Hs.
      * exists (x :: extra); repeat split.
        -- rewrite He, <- app_assoc; reflexivity.
        -- intros y [<- | Hy]; [now left | right; auto].
        -- rewrite length_app in Hlen; simpl in Hlen; lia.
        -- intros Hs; inversion Hs as [| ? ? Hs' Hall]; subst.
           constructor; [auto |].
           apply Forall_forall; intros y Hy.
           rewrite Forall_forall in Hall; auto.
Qed.

Lemma selectItems_spec (candidates : list News.Item) :
  exists ps os,
    News.selectItems candidates = ps ++ os
    /\ (length ps <= 2)%nat
    /\ (length (ps ++ os) <= 5)%nat
    /\ NoDup (map News.key (ps ++ os))
    /\ (forall x, In x ps -> In x candidates /\ News.pnjIr x = true)
    /\ (forall x, In x os -> In x candidates /\ News.pnjIr x = false)
    /\ StronglySorted laterFirst ps /\ StronglySorted laterFirst os.
Proof.
  unfold News.selectItems; cbv zeta.
  set (pnj := News.sortByTs (filter (fun item => News.pnjIr item) candidates)).
  set (oth := News.sortByTs
                (filter (fun item => negb (News.pnjIr item)) candidates)).
  assert (H0 : selection_ok ([], [])) by (split; [intros k; simpl; tauto | constructor]).
  destruct (pushUpTo_spec 2 pnj _ H0) as (H1 & ps & Eps & Ips & Lps & Sps).
  destruct (pushUpTo_spec News.MAX_ITEMS oth _ H1) as (H2 & os & Eos & Ios & Los & Sos).
  cbn [fst app] in Eps; rewrite Eps in *.
  exists ps, os.
  destruct H2 as [_ Hn]; rewrite Eos in Hn, Los.
  cbn [length fst] in Lps; unfold News.MAX_ITEMS in Los.
  split; [exact Eos |].
  split; [lia |].
  split; [lia |].
  split; [exact Hn |].
  split.
  { intros x Hx; apply Ips, sortByTs_In, filter_In in Hx; exact Hx. }
  split.
  { intros x Hx; apply Ios, sortByTs_In, filter_In in Hx as [Hc Hb].
    split; [exact Hc | now apply negb_true_iff in Hb]. }
  split; [apply Sps, sortByTs_sorted | apply Sos, sortByTs_sorted].
Qed.

Lemma filter_none {A : Type} (f : A -> bool) (l : list A) :
  (forall x, In x l -> f x = false) -> filter f l = [].
Proof.
  induction l as [| a l IH]; intros H; simpl; [reflexivity |].
  rewrite (H a) by now left. apply IH; intros x Hx; apply H; now right.
Qed.

Lemma filter_shorter {A : Type} (f : A -> bool) (l : list A) :
  (length (filter f l) <= length l)%nat.
Proof.
  induction l as [| a l IH]; simpl; [lia |].
  destruct (f a); simpl; lia.
Qed.

(** X24: the selection keeps at most five items, at most two of them
    from the company's investor pages, every one of them a candidate,
    and no two with the same key (the URL, or the title when there is no
    URL). *)
Theorem selection_bounded (candidates : list News.Item) :
  let rs := News.selectItems candidates in
  (length rs <= News.MAX_ITEMS)%nat
  /\ (length (filter (fun x => News.pnjIr x) rs) <= 2)%nat
  /\ NoDup (map News.key rs)
  /\ (forall x, In x rs -> In x candidates).
Proof.
  intros rs; unfold rs.
  destruct (selectItems_spec candidates)
    as (ps & os & -> & Lp & L & N & Hp & Ho & _ & _).
  repeat split; try assumption.
  - rewrite filter_app, length_app.
    assert (F : filter (fun x => News.pnjIr x) os = []).
    { apply filter_none; intros x Hx; apply (Ho x Hx). }
    rewrite F; simpl.
    pose proof (filter_shorter (fun x => News.pnjIr x) ps). lia.
  - intros x Hx; apply in_app_or in Hx as [Hx | Hx];
      [apply (Hp x Hx) | apply (Ho x Hx)].
Qed.

(** X25: in the selection the items from the investor pages come first,
    the others after them, and each of the two groups is ordered from
    the latest to the earliest. *)
Theorem selection_ordered (candidates : list News.Item) :
  exists ps os,
    News.selectItems candidates = ps ++ os
    /\ Forall (fun x => News.pnjIr x = true) ps
    /\ Forall (fun x => News.pnjIr x = false) os
    /\ StronglySorted (fun a b => (News.ts b <= News.ts a)%Z) ps
    /\ StronglySorted (fun a b => (News.ts b <= News.ts a)%Z) os.
Proof.
  destruct (selectItems_spec candidates)
    as (ps & os & E & _ & _ & _ & Hp & Ho & Sp & So).
  exists ps, os; repeat split; try assumption.
  - apply Forall_forall; intros x Hx; apply (Hp x Hx).
  - apply Forall_forall; intros x Hx; apply (Ho x Hx).
Qed.

(** * The sentiments endpoint *)

Lemma cors_headers_set :
  fold_left (fun h kv => Functions.set_header h (fst kv) (snd kv))
    Functions.CORS_HEADERS [] = Functions.CORS_HEADERS.
Proof. reflexivity. Qed.

Lemma applyCors_no_origin (env : option Js.jsstring) (req : Functions.Request) :
  Functions.origin req = None ->
  Functions.applyCors env req [] = (Functions.CORS_HEADERS, true).
Proof. intros H; unfold Functions.applyCors; now rewrite H, cors_headers_set. Qed.

Lemma applyCors_allowed (env : option Js.jsstring) (req : Functions.Request)
  (o : Js.jsstring) :
  Functions.origin req = Some o -> Js.truthy o = true ->
  Js.has (Functions.getAllowedOrigins env req) o = true ->
  Functions.applyCors env req []
  = (Functions.set_header
       (Functions.set_header Functions.CORS_HEADERS Text.allow_origin o)
       Text.vary Text.Origin, true).
Proof.
  intros H Ht Ha; unfold Functions.applyCors.
  now rewrite H, Ht, Ha, cors_headers_set.
Qed.

Lemma applyCors_refused (env : option Js.jsstring) (req : Functions.Request)
  (o : Js.jsstring) :
  Functions.origin req = Some o -> Js.truthy o = true ->
  Js.has (Functions.getAllowedOrigins env req) o = false ->
  Functions.applyCors env req [] = (Functions.CORS_HEADERS, false).
Proof.
  intros H Ht Ha; unfold Functions.applyCors.
  now rewrite H, Ht, Ha, cors_headers_set.
Qed.

Section Endpoint.

Context {V News : Type} (NEWS_DATA : News).
Variable env : option Js.jsstring.
Variable store : option (list (Functions.Doc V)).
Variable req : Functions.Request.

Let resp := Functions.getSentiments NEWS_DATA env store req.

Lemma refused_response (o : Js.jsstring) :
  Functions.origin req = Some o -> Js.truthy o = true ->
  Js.has (Functions.getAllowedOrigins env req) o = false ->
  resp = Functions.mkResponse V News 403 Functions.CORS_HEADERS
           (Functions.Send Text.origin_not_allowed).
Proof.
  intros H Ht Ha; unfold resp, Functions.getSentiments.
  now rewrite (applyCors_refused env req o H Ht Ha).
Qed.

Lemma accepted_headers (o : Js.jsstring) :
  Functions.origin req = Some o -> Js.truthy o = true ->
  Js.has (Functions.getAllowedOrigins env req) o = true ->
  Functions.status resp <> 403%nat
  /\ Functions.headers resp
     = Functions.set_header
         (Functions.set_header Functions.CORS_HEADERS Text.allow_origin o)
         Text.vary Text.Origin.
Proof.
  intros H Ht Ha; unfold resp, Functions.getSentiments.
  rewrite (applyCors_allowed env req o H Ht Ha); cbn [negb].
  destruct (Js.eqb (Functions.method req) _); [split; [discriminate | reflexivity] |].
  destruct (negb (Js.eqb (Functions.method req) _));
    [split; [discriminate | reflexivity] |].
  destruct store; split; try discriminate; reflexivity.
Qed.

End Endpoint.

(** X26: a request whose Origin header is not among the allowed origins
    is answered 403 "Origin not allowed", whatever its method and
    whatever the document store holds; the answer carries the three
    fixed CORS headers but no Access-Control-Allow-Origin. *)
Theorem disallowed_origin_rejected {V News : Type} (NEWS_DATA : News)
  (env : option Js.jsstring) (store : option (list (Functions.Doc V)))
  (req : Functions.Request) (o : Js.jsstring) :
  Functions.origin req = Some o -> Js.truthy o = true ->
  Js.has (Functions.getAllowedOrigins env req) o = false ->
  let r := Functions.getSentiments NEWS_DATA env store req in
  Functions.status r = 403%nat
  /\ Functions.body r = Functions.Send Text.origin_not_allowed
  /\ Functions.get_header (Functions.headers r) Text.allow_origin = None
  /\ Functions.get_header (Functions.headers r) Text.allow_methods
     = Some Text.get_options
  /\ Functions.get_header (Functions.headers r) Text.allow_headers
     = Some Text.content_type
  /\ Functions.get_header (Functions.headers r) Text.max_age
     = Some Text.seconds.
Proof.
  intros H Ht Ha r; unfold r.
  rewrite (refused_response NEWS_DATA env store req o H Ht Ha).
  repeat split.
Qed.

Lemma disallowed_origin_rejected_witness :
  let req := Functions.mkRequest Text.POST None (Some Text.app_host)
               (Some Text.evil) in
  let r := Functions.getSentiments (V := nat) tt None (Some []) req in
  Functions.status r = 403%nat
  /\ Functions.body r = Functions.Send Text.origin_not_allowed
  /\ Functions.get_header (Functions.headers r) Text.allow_origin = None
  /\ Functions.get_header (Functions.headers r) Text.allow_methods
     = Some Text.get_options
  /\ Functions.get_header (Functions.headers r) Text.allow_headers
     = Some Text.content_type
  /\ Functions.get_header (Functions.headers r) Text.max_age
     = Some Text.seconds.
Proof.
  apply (disallowed_origin_rejected tt None (Some [])
           (Functions.mkRequest Text.POST None (Some Text.app_host)
              (Some Text.evil)) Text.evil); reflexivity.
Defined.

Lemma has_app (a b : list Js.jsstring) (s : Js.jsstring) :
  Js.has (a ++ b) s = (Js.has a s || Js.has b s)%bool.
Proof. unfold Js.has; apply existsb_app. Qed.

(** X27: the two local development origins are always allowed, and so
    are the [https] and [http] origins of the request's own host (the
    first entry of X-Forwarded-Host, trimmed, or else the Host header);
    a request from any allowed origin is never answered 403 and gets that
    very origin back in Access-Control-Allow-Origin, with Vary: Origin. *)
Theorem allowed_origin_echoed {V News : Type} (NEWS_DATA : News)
  (env : option Js.jsstring) (store : option (list (Functions.Doc V)))
  (req : Functions.Request) (o : Js.jsstring) :
  Functions.origin req = Some o -> Js.truthy o = true ->
  Js.has (Functions.getAllowedOrigins env req) o = true
  \/ o = Text.localhost \/ o = Text.loopback
  \/ (Js.truthy (Functions.getPrimaryHost req) = true
      /\ (o = Text.https ++ Functions.getPrimaryHost req
          \/ o = Text.http ++ Functions.getPrimaryHost req)) ->
  let r := Functions.getSentiments NEWS_DATA env store req in
  Functions.status r <> 403%nat
  /\ Functions.get_header (Functions.headers r) Text.allow_origin = Some o
  /\ Functions.get_header (Functions.headers r) Text.vary = Some Text.Origin.
Proof.
  intros H Ht Hc r.
  assert (Ha : Js.has (Functions.getAllowedOrigins env req) o = true).
  { destruct Hc as [Ha | Hc]; [exact Ha |].
    apply Js_has_In; unfold Functions.getAllowedOrigins.
    destruct Hc as [-> | [-> | [Hh Hc]]].
    - destruct (Js.truthy (Functions.getPrimaryHost req));
        rewrite ?in_app_iff; simpl; tauto.
    - destruct (Js.truthy (Functions.getPrimaryHost req));
        rewrite ?in_app_iff; simpl; tauto.
    - rewrite Hh, in_app_iff; right.
      destruct Hc as [-> | ->]; simpl; tauto. }
  destruct (accepted_headers NEWS_DATA env store req o H Ht Ha) as [Hs Hh].
  fold r in Hs, Hh; rewrite Hh.
  split; [exact Hs | split; reflexivity].
Qed.

Lemma allowed_origin_echoed_witness :
  let req := Functions.mkRequest Text.GET None (Some Text.app_host)
               (Some (Text.https ++ Text.app_host)) in
  let r := Functions.getSentiments (V := nat) tt None None req in
  Functions.status r <> 403%nat
  /\ Functions.get_header (Functions.headers r) Text.allow_origin
     = Some (Text.https ++ Text.app_host)
  /\ Functions.get_header (Functions.headers r) Text.vary = Some Text.Origin.
Proof.
  apply (allowed_origin_echoed tt None None
           (Functions.mkRequest Text.GET None (Some Text.app_host)
              (Some (Text.https ++ Text.app_host)))
           (Text.https ++ Text.app_host)); try reflexivity.
  right; right; right; split; [reflexivity | left; reflexivity].
Defined.

Lemma applyCors_ok_cases (env : option Js.jsstring) (req : Functions.Request) :
  snd (Functions.applyCors env req []) = true ->
  exists hs, Functions.applyCors env req [] = (hs, true).
Proof.
  destruct (Functions.applyCors env req []) as [hs ok]; simpl.
  intros ->; now exists hs.
Qed.

(** X28: once the origin check passes, the method decides the answer:
    OPTIONS gets 204 with an empty body, any method other than GET and
    OPTIONS gets 405 "Method not allowed", and GET gets 200 with the news
    and the collected sentiments, or 500 when reading the store fails.
    The store matters to GET requests only. *)
Theorem method_dispatch {V News : Type} (NEWS_DATA : News)
  (env : option Js.jsstring) (store : option (list (Functions.Doc V)))
  (req : Functions.Request) :
  let r := Functions.getSentiments NEWS_DATA env store req in
  (snd (Functions.applyCors env req []) = true ->
   (Functions.method req = Text.OPTIONS ->
    Functions.status r = 204%nat /\ Functions.body r = Functions.Send Text.empty)
   /\ (Functions.method req <> Text.OPTIONS ->
       Functions.method req <> Text.GET ->
       Functions.status r = 405%nat
       /\ Functions.body r = Functions.Send Text.method_not_allowed)
   /\ (Functions.method req = Text.GET ->
       match store with
       | Some docs =>
           Functions.status r = 200%nat
           /\ Functions.body r
              = Functions.Json NEWS_DATA (Functions.collectSentiments docs)
       | None =>
           Functions.status r = 500%nat
           /\ Functions.body r = Functions.Send Text.error_fetching
       end))
  /\ (Functions.method req <> Text.GET ->
      forall store',
        Functions.getSentiments NEWS_DATA env store' req = r).
Proof.
  intros r; unfold r, Functions.getSentiments; split.
  - intros Hok; destruct (applyCors_ok_cases env req Hok) as [hs ->].
    cbn [negb]. split; [| split].
    + intros Hm; rewrite Hm; split; reflexivity.
    + intros Ho Hg.
      assert (O : Js.eqb (Functions.method req) Text.OPTIONS = false)
        by (apply not_true_iff_false; intros E; apply Js_eqb_eq in E; auto).
      assert (G : Js.eqb (Functions.method req) Text.GET = false)
        by (apply not_true_iff_false; intros E; apply Js_eqb_eq in E; auto).
      unfold Text.GET, Text.OPTIONS in *; rewrite O, G; split; reflexivity.
    + intros Hm; rewrite Hm.
      destruct store; split; reflexivity.
  - intros Hm store'.
    assert (G : Js.eqb (Functions.method req) Text.GET = false)
      by (apply not_true_iff_false; intros E; apply Js_eqb_eq in E; auto).
    destruct (Functions.applyCors env req []) as [hs ok].
    fold Text.GET Text.OPTIONS.
    destruct (negb ok); [reflexivity |].
    destruct (Js.eqb (Functions.method req) Text.OPTIONS); [reflexivity |].
    rewrite G; reflexivity.
Qed.

Lemma method_dispatch_witness :
  let req := Functions.mkRequest Text.POST None (Some Text.app_host) None in
  let r := Functions.getSentiments (V := nat) tt None (Some []) req in
  Functions.status r = 405%nat
  /\ Functions.body r = Functions.Send Text.method_not_allowed
  /\ Functions.getSentiments (V := nat) tt None None req = r.
Proof.
  destruct (method_dispatch (V := nat) tt None (Some [])
              (Functions.mkRequest Text.POST None (Some Text.app_host) None))
    as [H1 H2].
  destruct (H1 eq_refl) as (_ & H405 & _).
  destruct H405 as [Hs Hb]; try discriminate.
  split; [exact Hs | split; [exact Hb |]].
  apply H2; discriminate.
Defined.

Lemma obj_get_set {V : Type} (o : list (Js.jsstring * V)) (id id' : Js.jsstring)
  (v : V) :
  Functions.obj_get (Functions.obj_set o id v) id'
  = if Js.eqb id id' then Some v else Functions.obj_get o id'.
Proof.
  induction o as [| [k w] o IH]; simpl.
  - reflexivity.
  - destruct (Js.eqb k id) eqn:E; simpl.
    + apply Js_eqb_eq in E; subst k.
      destruct (Js.eqb id id'); reflexivity.
    + rewrite IH.
      destruct (Js.eqb k id') eqn:E'; [| reflexivity].
      destruct (Js.eqb id id') eqn:E2; [| reflexivity].
      apply Js_eqb_eq in E', E2; subst.
      rewrite Js_eqb_refl in E; discriminate.
Qed.

Lemma collect_from {V : Type} (docs : list (Functions.Doc V)) (id : Js.jsstring) :
  forall acc,
  NoDup (map fst docs) ->
  Functions.obj_get
    (fold_left (fun o d => match snd d with
                           | Some v => Functions.obj_set o (fst d) v
                           | None => o
                           end) docs acc) id
  = match find (fun d => Js.eqb (fst d) id) docs with
    | Some (_, Some v) => Some v
    | _ => Functions.obj_get acc id
    end.
Proof.
  induction docs as [| [k w] docs IH]; intros acc Hn; simpl; [reflexivity |].
  inversion Hn as [| ? ? Hk Hn']; subst.
  rewrite IH by assumption.
  destruct (Js.eqb k id) eqn:E.
  - apply Js_eqb_eq in E; subst k.
    match goal with
    | |- context [find ?f docs] => destruct (find f docs) as [d |] eqn:F
    end.
    + apply find_some in F as [Hin Hd]. apply Js_eqb_eq in Hd.
      exfalso; apply Hk; rewrite <- Hd; now apply in_map.
    + destruct w as [v |]; [| reflexivity].
      now rewrite obj_get_set, Js_eqb_refl.
  - match goal with
    | |- context [find ?f docs] =>
        destruct (find f docs) as [[k' [v' |]] |]
    end; try reflexivity;
      (destruct w as [v |]; [| reflexivity]); now rewrite obj_get_set, E.
Qed.

(** X29: for documents with distinct ids, the sentiments sent hold
    exactly the documents that have a [sentiment] field, each under its
    id with that field's value; a document without the field gets no
    entry. *)
Theorem sentiments_collected {V : Type} (docs : list (Functions.Doc V))
  (id : Js.jsstring) (v : V) :
  NoDup (map fst docs) ->
  (Functions.obj_get (Functions.collectSentiments docs) id = Some v
   <-> In (id, Some v) docs)
  /\ (In (id, None) docs ->
      Functions.obj_get (Functions.collectSentiments docs) id = None).
Proof.
  intros Hn; unfold Functions.collectSentiments.
  rewrite (collect_from docs id [] Hn); simpl.
  assert (U : forall w, In (id, w) docs ->
                find (fun d => Js.eqb (fst d) id) docs = Some (id, w)).
  { clear v; intros w; induction docs as [| [k x] docs IH]; intros Hin;
      [destruct Hin |].
    inversion Hn as [| ? ? Hk Hn']; subst; simpl.
    destruct Hin as [E | Hin].
    - injection E as -> ->. now rewrite Js_eqb_refl.
    - destruct (Js.eqb k id) eqn:E; [| now apply IH].
      apply Js_eqb_eq in E; subst k.
      exfalso; apply Hk. change id with (fst (id, w)); now apply in_map. }
  split; [split |].
  - match goal with
    | |- context [find ?f docs] =>
        destruct (find f docs) as [[k [x |]] |] eqn:F
    end; try discriminate.
    intros [= ->]. apply find_some in F as [Hin E].
    apply Js_eqb_eq in E; simpl in E; now subst k.
  - intros Hin; now rewrite (U _ Hin).
  - intros Hin; now rewrite (U _ Hin).
Qed.

Lemma sentiments_collected_witness :
  Functions.obj_get
    (Functions.collectSentiments
       [(Text.repo, Some 7%nat); (Text.evil, None)]) Text.repo = Some 7%nat
  <-> In (Text.repo, Some 7%nat) [(Text.repo, Some 7%nat); (Text.evil, None)].
Proof.
  apply (sentiments_collected [(Text.repo, Some 7%nat); (Text.evil, None)]).
  repeat constructor; simpl; intuition discriminate.
Defined.

(** * The export configuration *)

Lemma split_no_sep (sep : N) (s : Js.jsstring) :
  ~ In sep s -> Js.split sep s = [s].
Proof.
  induction s as [| c s IH]; intros H; simpl; [reflexivity |].
  destruct (N.eqb c sep) eqn:E.
  - apply N.eqb_eq in E; exfalso; apply H; now left.
  - rewrite IH; [reflexivity | intros Hin; apply H; now right].
Qed.

Lemma split_at_sep (sep : N) (a b : Js.jsstring) :
  ~ In sep a -> Js.split sep (a ++ sep :: b) = a :: Js.split sep b.
Proof.
  induction a as [| c a IH]; intros H; simpl.
  - now rewrite N.eqb_refl.
  - destruct (N.eqb c sep) eqn:E.
    + apply N.eqb_eq in E; exfalso; apply H; now left.
    + rewrite IH; [reflexivity | intros Hin; apply H; now right].
Qed.

(** X30: the export gets a base path only when built by GitHub Actions
    ([GITHUB_ACTIONS] is exactly "true") for a repository named
    "owner/name" with a non-empty name, and it is then "/name"; without
    the flag, without the repository variable, or with a repository
    that has no slash, the base path is left undefined. *)
Theorem base_path_from_repository
  (GITHUB_ACTIONS GITHUB_REPOSITORY : option Js.jsstring) :
  (GITHUB_ACTIONS <> Some Text.true_ ->
   NextConfig.basePath GITHUB_ACTIONS GITHUB_REPOSITORY = None)
  /\ NextConfig.basePath GITHUB_ACTIONS None = None
  /\ (forall r, ~ In Js.slash r ->
        NextConfig.basePath GITHUB_ACTIONS (Some r) = None)
  /\ (forall owner name,
        ~ In Js.slash owner -> ~ In Js.slash name -> name <> [] ->
        NextConfig.basePath (Some Text.true_)
          (Some (owner ++ Js.slash :: name))
        = Some (Text.one_slash ++ name)).
Proof.
  unfold NextConfig.basePath; fold Text.true_ Text.one_slash.
  split; [| split; [| split]].
  - intros H.
    assert (E : match GITHUB_ACTIONS with
                | Some v => Js.eqb v Text.true_
                | None => false
                end = false).
    { destruct GITHUB_ACTIONS as [v |]; [| reflexivity].
      apply not_true_iff_false; intros E; apply Js_eqb_eq in E; subst v.
      now apply H. }
    rewrite E; reflexivity.
  - now rewrite andb_false_r.
  - intros r Hr; rewrite (split_no_sep _ _ Hr); simpl.
    now rewrite andb_false_r.
  - intros owner name Ho Hn Hne.
    rewrite (split_at_sep _ _ _ Ho), (split_no_sep _ _ Hn), Js_eqb_refl.
    cbn [nth andb].
    destruct name as [| c name]; [contradiction | reflexivity].
Qed.

Lemma base_path_from_repository_witness :
  NextConfig.basePath (Some Text.true_) (Some Text.owner_repo)
  = Some (Text.one_slash ++ Text.repo).
Proof.
  destruct (base_path_from_repository (Some Text.true_) (Some Text.owner_repo))
    as (_ & _ & _ & H).
  apply (H (firstn 12 Text.owner_repo) Text.repo);
    [vm_compute; intuition discriminate
    | vm_compute; intuition discriminate
    | discriminate].
Defined.
